(** * React Hooks Interactive Demo: the navigation shell and its selector

    A shallow embedding of [src/App.tsx] (the Shell), of the Sidebar
    component (the Selector), of the [useLocalStorage] custom hook and of
    the timer handling of two demo panels, together with the properties
    the specification states about them.

    Conventions of the embedding:
    - a [HookType] is a JavaScript string; the TypeScript union of string
      literals is kept as the list [HookTypes];
    - a rendered tree is an [Element]: host tags, imported components
      (the ten demo panels and the UI toolkit, both opaque leaves of the
      composition) and text;
    - an event handler is a state transformer [W -> W] on the state of the
      component that owns the callbacks; a React state setter called with a
      plain value is a field update, and two setters called in one handler
      are applied in program order;
    - [cn] (from [lib/utils]) is not part of the modelled sources and is a
      parameter of the development. *)

From Stdlib Require Import Ascii.
From Stdlib Require QArith.
From stdpp Require Import base strings list gmap.

Open Scope string_scope.
Open Scope list_scope.

(** ** Rendered elements *)

(** The components imported by [App.tsx] and by the Sidebar. *)
Inductive Component : Set :=
| UseStateDemo | UseEffectDemo | UseContextDemo | UseReducerDemo
| UseCallbackDemo | UseMemoDemo | UseRefDemo | UseImperativeHandleDemo
| UseLayoutEffectDemo | UseDebugValueDemo
| Button | Menu | Badge | X | ScrollArea.

#[global] Instance Component_eq_dec : EqDecision Component.
Proof. solve_decision. Defined.

Inductive ElemType : Set :=
| Tag (name : string)
| Comp (c : Component)
| Fragment.

#[global] Instance ElemType_eq_dec : EqDecision ElemType.
Proof. solve_decision. Defined.

(** [Elem type attrs onClick children]; [Falsy] is the value [false] that
    [cond && <div/>] leaves in a child position and that renders nothing. *)
#[warnings="-register-all"]
Inductive Element (H : Type) : Type :=
| Elem (type : ElemType) (attrs : list (string * string))
       (onClick : option H) (children : list (Element H))
| Text (s : string)
| Falsy.

Arguments Elem {H} type attrs onClick children.
Arguments Text {H} s.
Arguments Falsy {H}.

Section Traversals.
Context {H : Type}.

Definition elemType (e : Element H) : option ElemType :=
  match e with Elem t _ _ _ => Some t | _ => None end.

Definition onClickOf (e : Element H) : option H :=
  match e with Elem _ _ h _ => h | _ => None end.

Definition childrenOf (e : Element H) : list (Element H) :=
  match e with Elem _ _ _ cs => cs | _ => [] end.

Fixpoint assoc (k : string) (l : list (string * string)) : option string :=
  match l with
  | [] => None
  | (k', v) :: l' => if String.eqb k k' then Some v else assoc k l'
  end.

Definition attr (k : string) (e : Element H) : option string :=
  match e with Elem _ a _ _ => assoc k a | _ => None end.

(** Every click handler of a tree, in document order. *)
Fixpoint handlers (e : Element H) : list H :=
  match e with
  | Elem _ _ h cs => option_list h ++ flat_map handlers cs
  | _ => []
  end.

(** Every element of a tree whose type satisfies [p], in document order. *)
Fixpoint select (p : ElemType -> bool) (e : Element H) : list (Element H) :=
  match e with
  | Elem t _ _ cs =>
      (if p t then [e] else []) ++ flat_map (select p) cs
  | _ => []
  end.

(** The text of a tree. *)
Fixpoint textOf (e : Element H) : string :=
  match e with
  | Elem _ _ _ cs => String.concat EmptyString (List.map textOf cs)
  | Text s => s
  | Falsy => EmptyString
  end.

(** What React draws nothing for. *)
Fixpoint rendersNothing (e : Element H) : bool :=
  match e with
  | Elem Fragment _ _ cs => forallb rendersNothing cs
  | Elem _ _ _ _ => false
  | Text _ => false
  | Falsy => true
  end.
End Traversals.

(** The ten demo panels, as the imports of [App.tsx] list them. *)
Definition isPanel (t : ElemType) : bool :=
  match t with
  | Comp (UseStateDemo | UseEffectDemo | UseContextDemo | UseReducerDemo
         | UseCallbackDemo | UseMemoDemo | UseRefDemo
         | UseImperativeHandleDemo | UseLayoutEffectDemo
         | UseDebugValueDemo) => true
  | _ => false
  end.

Definition isTag (name : string) (t : ElemType) : bool :=
  match t with Tag n => String.eqb n name | _ => false end.

(** The panels mounted in a tree. *)
Definition mounted {H} (e : Element H) : list (Element H) := select isPanel e.

(** ** The catalog ([HookType], [HookInfo], [hooks]) *)

Definition HookType : Set := string.

(** The members of the union type [HookType], in declaration order. *)
Definition HookTypes : list HookType :=
  [ "useState"; "useEffect"; "useContext"; "useReducer"; "useCallback";
    "useMemo"; "useRef"; "useImperativeHandle"; "useLayoutEffect";
    "useDebugValue" ].

Record HookInfo : Set := mkHookInfo {
  id : HookType;
  name : string;
  description : string;
  category : string
}.

Definition hooks : list HookInfo :=
  [ mkHookInfo "useState" "useState" "Manage component state" "Basic";
    mkHookInfo "useEffect" "useEffect" "Handle side effects" "Basic";
    mkHookInfo "useContext" "useContext" "Access React context" "Basic";
    mkHookInfo "useReducer" "useReducer" "Complex state management" "Advanced";
    mkHookInfo "useCallback" "useCallback" "Memoize callbacks" "Performance";
    mkHookInfo "useMemo" "useMemo" "Memoize expensive calculations" "Performance";
    mkHookInfo "useRef" "useRef" "Access DOM elements" "Advanced";
    mkHookInfo "useImperativeHandle" "useImperativeHandle" "Customize ref exposure" "Advanced";
    mkHookInfo "useLayoutEffect" "useLayoutEffect" "Synchronous effects" "Advanced";
    mkHookInfo "useDebugValue" "useDebugValue" "Display debug info" "Advanced" ].

(** [switch (category)] compares with [===], which on strings is equality
    of contents. *)
Definition getCategoryColor (category : string) : string :=
  if String.eqb category "Basic" then
    "bg-green-100 text-green-800 hover:bg-green-200"
  else if String.eqb category "Advanced" then
    "bg-blue-100 text-blue-800 hover:bg-blue-200"
  else if String.eqb category "Performance" then
    "bg-purple-100 text-purple-800 hover:bg-purple-200"
  else
    "bg-gray-100 text-gray-800 hover:bg-gray-200".

(** An argument of [cn]: a class string, or the [false] that
    [cond && "classes"] evaluates to. *)
Inductive ClassValue : Set :=
| CStr (s : string)
| CFalse.

(** [a && s] on a boolean [a] and a string [s]. *)
Definition andClass (a : bool) (s : string) : ClassValue :=
  if a then CStr s else CFalse.

(** ** The Selector ([Sidebar]) and the Shell ([App]) *)

(** The state the Shell owns: the two [useState] cells of [App]. *)
Record NavigationState : Set := mkNav {
  selectedHook : HookType;
  sidebarOpen : bool
}.

Definition setSelectedHook (h : HookType) (st : NavigationState) : NavigationState :=
  {| selectedHook := h; sidebarOpen := sidebarOpen st |}.

Definition setSidebarOpen (b : bool) (st : NavigationState) : NavigationState :=
  {| selectedHook := selectedHook st; sidebarOpen := b |}.

(** [useState<HookType>('useState')] and [useState(false)]. *)
Definition initialState : NavigationState :=
  {| selectedHook := "useState"; sidebarOpen := false |}.

(** [renderHookDemo] is a closure of [App]: it reads [selectedHook] from
    the state of the render it belongs to. *)
Definition renderHookDemo {H} (st : NavigationState) : Element H :=
  let selectedHook := selectedHook st in
  if String.eqb selectedHook "useState" then Elem (Comp UseStateDemo) [] None []
  else if String.eqb selectedHook "useEffect" then Elem (Comp UseEffectDemo) [] None []
  else if String.eqb selectedHook "useContext" then Elem (Comp UseContextDemo) [] None []
  else if String.eqb selectedHook "useReducer" then Elem (Comp UseReducerDemo) [] None []
  else if String.eqb selectedHook "useCallback" then Elem (Comp UseCallbackDemo) [] None []
  else if String.eqb selectedHook "useMemo" then Elem (Comp UseMemoDemo) [] None []
  else if String.eqb selectedHook "useRef" then Elem (Comp UseRefDemo) [] None []
  else if String.eqb selectedHook "useImperativeHandle" then Elem (Comp UseImperativeHandleDemo) [] None []
  else if String.eqb selectedHook "useLayoutEffect" then Elem (Comp UseLayoutEffectDemo) [] None []
  else if String.eqb selectedHook "useDebugValue" then Elem (Comp UseDebugValueDemo) [] None []
  else
    Elem (Tag "div") [("className", "p-8 text-center text-muted-foreground")]
         None [Text "Hook demo coming soon..."].

(** The element of the [default:] branch of [renderHookDemo]. *)
Definition placeholder {H} : Element H :=
  Elem (Tag "div") [("className", "p-8 text-center text-muted-foreground")]
       None [Text "Hook demo coming soon..."].

Section Components.
(** [cn] from [@/lib/utils]: class-name arguments to one class string. *)
Variable cn : list ClassValue -> string.

Section Selector.
(** The state of whoever supplies the two callbacks. *)
Context {W : Type}.

Record SidebarProps : Type := mkSidebarProps {
  props_selectedHook : HookType;
  onHookSelect : HookType -> W -> W;
  isOpen : bool;
  onClose : W -> W
}.

Variable props : SidebarProps.

(** The overlay for narrow viewports: [isOpen && <div onClick={onClose}/>]. *)
Definition SidebarOverlay : Element (W -> W) :=
  if isOpen props then
    Elem (Tag "div")
         [("className", "fixed inset-0 bg-black/50 z-40 lg:hidden")]
         (Some (onClose props)) []
  else Falsy.

(** One row of the list: the body of [hooks.map((hook) => ...)]. *)
Definition SidebarRow (hook : HookInfo) : Element (W -> W) :=
  Elem (Tag "button")
    [("key", id hook);
     ("className",
      cn [CStr "w-full text-left p-3 rounded-lg border transition-colors";
          CStr "hover:bg-accent hover:text-accent-foreground";
          andClass (String.eqb (props_selectedHook props) (id hook))
                   "bg-accent text-accent-foreground border-primary"])]
    (Some (fun w => onClose props (onHookSelect props (id hook) w)))
    [ Elem (Tag "div")
        [("className", "flex items-center justify-between mb-1")] None
        [ Elem (Tag "code")
            [("className", "text-sm font-mono font-medium")] None
            [Text (name hook)];
          Elem (Tag "div")
            [("className", "flex items-center gap-1")] None
            [ Elem (Comp Badge)
                [("variant", "secondary");
                 ("className",
                  cn [CStr "text-xs"; CStr (getCategoryColor (category hook))])]
                None
                [Text (category hook)] ] ];
      Elem (Tag "p")
        [("className", "text-sm text-muted-foreground")] None
        [Text (description hook)] ].

Definition Sidebar : Element (W -> W) :=
  Elem Fragment [] None
    [ SidebarOverlay;
      Elem (Tag "div")
        [("className",
          cn [CStr "fixed right-0 top-0 h-full w-80 bg-card border-l shadow-lg transform transition-transform duration-300 ease-in-out z-50";
              CStr "lg:relative lg:transform-none lg:shadow-none";
              CStr (if isOpen props then "translate-x-0"
                    else "translate-x-full lg:translate-x-0")])]
        None
        [ Elem (Tag "div") [("className", "p-4 border-b")] None
            [ Elem (Tag "div")
                [("className", "flex items-center justify-between")] None
                [ Elem (Tag "h2")
                    [("className", "text-lg font-semibold")] None
                    [Text "React Hooks"];
                  Elem (Comp Button)
                    [("variant", "ghost"); ("size", "sm");
                     ("className", "lg:hidden")]
                    (Some (onClose props))
                    [Elem (Comp X) [("className", "h-4 w-4")] None []] ] ];
          Elem (Comp ScrollArea)
            [("className", "flex-1 h-[calc(100vh-80px)]")] None
            [ Elem (Tag "div") [("className", "p-4 space-y-2")] None
                (List.map SidebarRow hooks) ] ] ].

(** The rows of the rendered Selector and its overlay, read back from
    the tree. *)
Definition rowsOf (e : Element (W -> W)) : list (Element (W -> W)) :=
  select (isTag "button") e.

Definition overlayOf (e : Element (W -> W)) : option (Element (W -> W)) :=
  head (childrenOf e).

(** The handler a click on the row with key [k] runs. *)
Definition clickRow (e : Element (W -> W)) (k : string) : option (W -> W) :=
  match filter (fun r => attr "key" r = Some k) (rowsOf e) with
  | r :: _ => onClickOf r
  | [] => None
  end.

(** The category badge of a row: its text and its class. *)
Definition badgeOf (r : Element (W -> W)) : option (string * option string) :=
  match select (fun t => bool_decide (t = Comp Badge)) r with
  | b :: _ => Some (textOf b, attr "className" b)
  | [] => None
  end.
End Selector.

(** The props [App] passes to [Sidebar]. *)
Definition AppSidebarProps (st : NavigationState)
  : @SidebarProps NavigationState :=
  {| props_selectedHook := selectedHook st;
     onHookSelect := setSelectedHook;
     isOpen := sidebarOpen st;
     onClose := fun w => setSidebarOpen false w |}.

(** The tree one render of [App] returns, with [Sidebar] rendered in
    place.  The handlers close over the state [st] of that render. *)
Definition App (st : NavigationState)
  : Element (NavigationState -> NavigationState) :=
  Elem (Tag "div") [("className", "h-screen flex bg-background")] None
    [ Elem (Tag "div") [("className", "flex-1 flex flex-col")] None
        [ Elem (Tag "header") [("className", "border-b bg-card px-6 py-4")] None
            [ Elem (Tag "div")
                [("className", "flex items-center justify-between")] None
                [ Elem (Tag "h1") [("className", "text-2xl font-bold")] None
                    [Text "React Hooks Interactive Demo"];
                  Elem (Comp Button)
                    [("variant", "outline"); ("size", "sm");
                     ("className", "lg:hidden")]
                    (Some (fun w => setSidebarOpen (negb (sidebarOpen st)) w))
                    [Elem (Comp Menu) [("className", "h-4 w-4")] None []] ] ];
          Elem (Tag "main") [("className", "flex-1 overflow-auto")] None
            [renderHookDemo st] ];
      Sidebar (AppSidebarProps st) ].

(** The content area of a rendered [App] and the Selector in it. *)
Definition mainOf {H} (e : Element H) : list (Element H) :=
  select (isTag "main") e.

Definition sidebarOf {H} (e : Element H) : option (Element H) :=
  last (childrenOf e).

(** One user click on the rendered Shell: any handler of the tree drawn
    from the current state, run on that state. *)
Definition click (st st' : NavigationState) : Prop :=
  exists h, In h (handlers (App st)) /\ st' = h st.

Inductive reachable : NavigationState -> Prop :=
| reachable_init : reachable initialState
| reachable_click st st' : reachable st -> click st st' -> reachable st'.
End Components.

(** ** Callback spies

    The two callbacks the Selector receives, replaced by recorders: the
    world is the list of calls made so far, oldest first. *)

Inductive Call : Set :=
| CallSelect (h : HookType)
| CallClose.

Definition spyProps (selected : HookType) (open : bool)
  : @SidebarProps (list Call) :=
  {| props_selectedHook := selected;
     onHookSelect := fun h calls => calls ++ [CallSelect h];
     isOpen := open;
     onClose := fun calls => calls ++ [CallClose] |}.

(** What [clsx] does to its arguments when no two classes conflict: the
    strings joined by spaces, [false] dropped.  One possible [cn]. *)
Definition cn_join (args : list ClassValue) : string :=
  String.concat " "
    (omap (fun a => match a with CStr c => Some c | CFalse => None end) args).

(** ** [useLocalStorage]: the read at mount

    JavaScript code that can throw and that writes to the console: a
    computation takes the console (the messages so far, oldest first) and
    returns how it completed together with the console it leaves. *)

Inductive Error : Set :=
| SyntaxError      (* what [JSON.parse] throws *)
| SecurityError.   (* what reading [window.localStorage] throws when storage is denied *)

Inductive Completion (A : Type) : Type :=
| Normal (a : A)
| Throw (e : Error).

Arguments Normal {A} a.
Arguments Throw {A} e.

Definition JS (A : Type) : Type := list string -> Completion A * list string.

Definition ret {A} (a : A) : JS A := fun console => (Normal a, console).

Definition throw {A} (e : Error) : JS A := fun console => (Throw e, console).

Definition bind {A B} (m : JS A) (k : A -> JS B) : JS B :=
  fun console =>
    match m console with
    | (Normal a, console') => k a console'
    | (Throw e, console') => (Throw e, console')
    end.

(** [try { body } catch (error) { handler }] *)
Definition try_catch {A} (body : JS A) (handler : Error -> JS A) : JS A :=
  fun console =>
    match body console with
    | (Normal a, console') => (Normal a, console')
    | (Throw e, console') => handler e console'
    end.

Notation "x <- m ;; k" := (bind m (fun x => k))
  (at level 100, m at next level, right associativity).

Definition errorName (e : Error) : string :=
  match e with
  | SyntaxError => "SyntaxError"
  | SecurityError => "SecurityError"
  end.

Definition dquote : string := String "034"%char EmptyString.

(** [console.error(message, error)] *)
Definition console_error (message : string) (error : Error) : JS unit :=
  fun console => (Normal tt, console ++ [message +:+ " " +:+ errorName error]).

(** The browser as the hook sees it: [window.localStorage] is a store of
    strings under string keys, or is denied, in which case reading the
    property throws. *)
Record Window : Type := mkWindow {
  localStorage : option (gmap string string)
}.

(** [window.localStorage.getItem(key)]: the stored string, or [null]
    ([None]) when the key is absent. *)
Definition getItem (window : Window) (key : string) : JS (option string) :=
  match localStorage window with
  | Some store => ret (store !! key)
  | None => throw SecurityError
  end.

(** The truth value of [item] in [item ? ... : ...]: [null] and the empty
    string are falsy. *)
Definition truthy (item : option string) : bool :=
  match item with
  | Some EmptyString => false
  | Some (String _ _) => true
  | None => false
  end.

Section UseLocalStorage.
(** The values of JavaScript and [JSON.parse], which returns the parsed
    value or throws a [SyntaxError] ([None]). *)
Variable JSValue : Type.
Variable JSON_parse : string -> option JSValue.

Definition JSON_parse_js (text : string) : JS JSValue :=
  match JSON_parse text with
  | Some v => ret v
  | None => throw SyntaxError
  end.

(** The initializer [useLocalStorage] gives to [useState]; its result is
    the [storedValue] of the first render. *)
Definition useLocalStorage_init (window : Window) (key : string)
    (initialValue : JSValue) : JS JSValue :=
  try_catch
    (item <- getItem window key ;;
     if truthy item then JSON_parse_js (default EmptyString item)
     else ret initialValue)
    (fun error =>
       _ <- console_error
              ("Error reading localStorage key " +:+ dquote +:+ key +:+ dquote +:+ ":")
              error ;;
       ret initialValue).
End UseLocalStorage.

(** ** A [JSON.parse] to run the hook with

    The grammar of ECMA-404.  Number and string tokens are kept as their
    source text (escape sequences are checked, not decoded), so neither
    floating point nor UTF-16 enters; object members are kept in source
    order. *)

Module JSON.
#[local] Open Scope nat_scope.

#[warnings="-register-all"]
Inductive value : Set :=
| Null
| Bool (b : bool)
| Number (literal : string)
| Str (body : string)
| Array (elements : list value)
| Object (members : list (string * value)).

Definition code (c : ascii) : nat := nat_of_ascii c.

Definition is_ws (c : ascii) : bool :=
  (code c =? 32) || (code c =? 9) || (code c =? 10) || (code c =? 13).

Definition is_digit (c : ascii) : bool := (48 <=? code c) && (code c <=? 57).

Definition is_hex (c : ascii) : bool :=
  is_digit c || ((65 <=? code c) && (code c <=? 70))
             || ((97 <=? code c) && (code c <=? 102)).

Fixpoint skip_ws (s : list ascii) : list ascii :=
  match s with
  | c :: r => if is_ws c then skip_ws r else s
  | [] => []
  end.

Fixpoint digits (s : list ascii) : list ascii * list ascii :=
  match s with
  | c :: r => if is_digit c then let '(ds, r') := digits r in (c :: ds, r')
              else ([], s)
  | [] => ([], [])
  end.

(** [strip lit s]: [s] without its prefix [lit]. *)
Fixpoint strip (lit s : list ascii) : option (list ascii) :=
  match lit, s with
  | [], _ => Some s
  | l :: lit', c :: r => if Ascii.eqb l c then strip lit' r else None
  | _ :: _, [] => None
  end.

Definition scan_int (s : list ascii) : option (list ascii * list ascii) :=
  match s with
  | c :: r =>
      if code c =? 48 then Some ([c], r)
      else if is_digit c then let '(ds, r') := digits r in Some (c :: ds, r')
      else None
  | [] => None
  end.

Definition scan_frac (s : list ascii) : option (list ascii * list ascii) :=
  match s with
  | c :: r =>
      if Ascii.eqb c "." then
        match digits r with
        | ([], _) => None
        | (ds, r') => Some (c :: ds, r')
        end
      else Some ([], s)
  | [] => Some ([], [])
  end.

Definition scan_exp (s : list ascii) : option (list ascii * list ascii) :=
  match s with
  | c :: r =>
      if Ascii.eqb c "e" || Ascii.eqb c "E" then
        let '(sign, r1) :=
          match r with
          | g :: r' => if Ascii.eqb g "+" || Ascii.eqb g "-" then ([g], r')
                       else ([], r)
          | [] => ([], r)
          end in
        match digits r1 with
        | ([], _) => None
        | (ds, r2) => Some (c :: sign ++ ds, r2)
        end
      else Some ([], s)
  | [] => Some ([], [])
  end.

Definition scan_number (s : list ascii) : option (list ascii * list ascii) :=
  let '(sign, s1) :=
    match s with
    | c :: r => if Ascii.eqb c "-" then ([c], r) else ([], s)
    | [] => ([], s)
    end in
  '(i, s2) ← scan_int s1;
  '(f, s3) ← scan_frac s2;
  '(e, s4) ← scan_exp s3;
  Some (sign ++ i ++ f ++ e, s4).

(** The rest of a string token after its opening quote: the body up to
    the closing quote, and what follows. *)
Fixpoint scan_string (s : list ascii) : option (list ascii * list ascii) :=
  match s with
  | [] => None
  | c :: r =>
      if code c =? 34 then Some ([], r)
      else if code c <? 32 then None
      else if code c =? 92 then
        match r with
        | e :: r' =>
            if Ascii.eqb e "u" then
              match r' with
              | h1 :: h2 :: h3 :: h4 :: r'' =>
                  if is_hex h1 && is_hex h2 && is_hex h3 && is_hex h4 then
                    '(body, rest) ← scan_string r'';
                    Some (c :: e :: h1 :: h2 :: h3 :: h4 :: body, rest)
                  else None
              | _ => None
              end
            else if (code e =? 34) || (code e =? 92) || Ascii.eqb e "/"
                    || Ascii.eqb e "b" || Ascii.eqb e "f" || Ascii.eqb e "n"
                    || Ascii.eqb e "r" || Ascii.eqb e "t" then
              '(body, rest) ← scan_string r';
              Some (c :: e :: body, rest)
            else None
        | [] => None
        end
      else
        '(body, rest) ← scan_string r;
        Some (c :: body, rest)
  end.

Definition chars (s : string) : list ascii := String.list_ascii_of_string s.
Definition text (l : list ascii) : string := String.string_of_list_ascii l.

Fixpoint parse_value (fuel : nat) (s : list ascii) : option (value * list ascii) :=
  match fuel with
  | 0 => None
  | S fuel =>
      match skip_ws s with
      | [] => None
      | c :: r =>
          if Ascii.eqb c "n" then r' ← strip (chars "ull") r; Some (Null, r')
          else if Ascii.eqb c "t" then r' ← strip (chars "rue") r; Some (Bool true, r')
          else if Ascii.eqb c "f" then r' ← strip (chars "alse") r; Some (Bool false, r')
          else if code c =? 34 then
            '(body, r') ← scan_string r; Some (Str (text body), r')
          else if Ascii.eqb c "[" then
            match skip_ws r with
            | d :: r' => if Ascii.eqb d "]" then Some (Array [], r')
                         else '(vs, r'') ← parse_elements fuel r; Some (Array vs, r'')
            | [] => None
            end
          else if Ascii.eqb c "{" then
            match skip_ws r with
            | d :: r' => if Ascii.eqb d "}" then Some (Object [], r')
                         else '(ms, r'') ← parse_members fuel r; Some (Object ms, r'')
            | [] => None
            end
          else
            '(lit, r') ← scan_number (c :: r); Some (Number (text lit), r')
      end
  end
with parse_elements (fuel : nat) (s : list ascii) : option (list value * list ascii) :=
  match fuel with
  | 0 => None
  | S fuel =>
      '(v, r) ← parse_value fuel s;
      match skip_ws r with
      | d :: r' =>
          if Ascii.eqb d "," then
            '(vs, r'') ← parse_elements fuel r'; Some (v :: vs, r'')
          else if Ascii.eqb d "]" then Some ([v], r')
          else None
      | [] => None
      end
  end
with parse_members (fuel : nat) (s : list ascii)
  : option (list (string * value) * list ascii) :=
  match fuel with
  | 0 => None
  | S fuel =>
      match skip_ws s with
      | q :: r =>
          if code q =? 34 then
            '(k, r1) ← scan_string r;
            match skip_ws r1 with
            | d :: r2 =>
                if Ascii.eqb d ":" then
                  '(v, r3) ← parse_value fuel r2;
                  match skip_ws r3 with
                  | d' :: r4 =>
                      if Ascii.eqb d' "," then
                        '(ms, r5) ← parse_members fuel r4;
                        Some ((text k, v) :: ms, r5)
                      else if Ascii.eqb d' "}" then Some ([(text k, v)], r4)
                      else None
                  | [] => None
                  end
                else None
            | [] => None
            end
          else None
      | [] => None
      end
  end.

(** [JSON.parse(text)]: one value, white space around it, nothing else;
    [None] stands for the [SyntaxError]. *)
Definition parse (t : string) : option value :=
  match parse_value (2 * String.length t + 2) (chars t) with
  | Some (v, r) => match skip_ws r with [] => Some v | _ :: _ => None end
  | None => None
  end.

End JSON.

(** ** Timers: the browser, two panels, and the swap of panels

    The timer table of the browser, and the part of [UseCallbackDemo] and
    of [UseRefDemo] that starts and clears timers.  A state setter called
    from a handler is a field update; a ref is a field that keeps its
    value across renders. *)

Inductive TimerKind : Set := Interval | Timeout.

(** What runs when a timer fires. *)
Inductive Callback : Set :=
| TickSeconds (owner : Component)   (* () => { setSeconds(prev => prev + 1) } *)
| AutoSaved (value : string).       (* () => { setLastSaved(new Date()); console.log('Auto-saved:', value) } *)

(** The panel whose state the callback sets. *)
Definition ownerOf (cb : Callback) : Component :=
  match cb with
  | TickSeconds c => c
  | AutoSaved _ => UseRefDemo
  end.

Record Browser : Type := mkBrowser {
  nextTimer : nat;
  timers : gmap nat (TimerKind * Callback)
}.

(** Timer ids are integers greater than zero. *)
Definition freshBrowser : Browser := mkBrowser 1 ∅.

Definition setTimer (kind : TimerKind) (cb : Callback) (b : Browser) : nat * Browser :=
  (nextTimer b,
   mkBrowser (S (nextTimer b)) (<[nextTimer b := (kind, cb)]> (timers b))).

Definition setInterval : Callback -> Browser -> nat * Browser := setTimer Interval.
Definition setTimeout : Callback -> Browser -> nat * Browser := setTimer Timeout.

Definition clearTimer (i : nat) (b : Browser) : Browser :=
  mkBrowser (nextTimer b) (delete i (timers b)).

Definition clearInterval : nat -> Browser -> Browser := clearTimer.
Definition clearTimeout : nat -> Browser -> Browser := clearTimer.

(** The browser fires timer [i]: the callback it runs and the table it
    leaves.  An interval stays, a timeout fires once. *)
Definition fire (i : nat) (b : Browser) : option (Callback * Browser) :=
  match timers b !! i with
  | Some (Interval, cb) => Some (cb, b)
  | Some (Timeout, cb) => Some (cb, clearTimer i b)
  | None => None
  end.

(** The timers of the table whose callback sets the state of panel [c]. *)
Definition pending (c : Component) (b : Browser) : gmap nat (TimerKind * Callback) :=
  filter (fun kv => ownerOf (snd (snd kv)) = c) (timers b).

(** [if (ref.current)] on a ref that holds a timer id or [null]: the id
    when it is truthy. *)
Definition truthyId (current : option nat) : option nat :=
  match current with
  | Some (S n) => Some (S n)
  | Some 0 => None
  | None => None
  end.

(** [if (ref.current) { clear(ref.current) }] *)
Definition clearIfSet (current : option nat) (b : Browser) : Browser :=
  match truthyId current with
  | Some i => clearTimer i b
  | None => b
  end.

Module CallbackDemo.
(** Example 4 of [UseCallbackDemo]: [seconds], [isRunning], [timerRef]. *)
Record State : Set := mkState {
  seconds : nat;
  isRunning : bool;
  timerRef : option nat
}.

Definition init : State := mkState 0 false None.

Definition startTimer (s : State) (b : Browser) : State * Browser :=
  let '(i, b') := setInterval (TickSeconds UseCallbackDemo) b in
  (mkState (seconds s) true (Some i), b').

Definition stopTimer (s : State) (b : Browser) : State * Browser :=
  match truthyId (timerRef s) with
  | Some i => (mkState (seconds s) false None, clearInterval i b)
  | None => (mkState (seconds s) false (timerRef s), b)
  end.

Definition resetTimer (s : State) (b : Browser) : State * Browser :=
  match truthyId (timerRef s) with
  | Some i => (mkState 0 false None, clearInterval i b)
  | None => (mkState 0 false (timerRef s), b)
  end.

Inductive Event : Set :=
| ClickStartStop   (* onClick={isRunning ? stopTimer : startTimer} *)
| ClickReset       (* onClick={resetTimer} *)
| Fired (i : nat). (* the browser fires timer [i] *)

Definition run (cb : Callback) (s : State) : State :=
  match cb with
  | TickSeconds UseCallbackDemo => mkState (S (seconds s)) (isRunning s) (timerRef s)
  | _ => s
  end.

Definition handle (ev : Event) (s : State) (b : Browser) : State * Browser :=
  match ev with
  | ClickStartStop => if isRunning s then stopTimer s b else startTimer s b
  | ClickReset => resetTimer s b
  | Fired i =>
      match fire i b with
      | Some (cb, b') => (run cb s, b')
      | None => (s, b)
      end
  end.

(** Unmount runs the cleanups the effects of the component returned.  The
    one [useEffect] of [UseCallbackDemo] returns none, and nothing reads
    [timerRef] at unmount. *)
Definition unmount (s : State) (b : Browser) : Browser := b.
End CallbackDemo.

Module RefDemo.
(** Examples 2 and 10 of [UseRefDemo]: the timer and the auto-save. *)
Record State : Set := mkState {
  seconds : nat;
  isRunning : bool;
  timerRef : option nat;
  autoSaveText : string;
  autoSaveTimeoutRef : option nat;
  lastSaved : option nat
}.

Definition init : State := mkState 0 false None EmptyString None None.

Definition startTimer (s : State) (b : Browser) : State * Browser :=
  if negb (isRunning s) then
    let '(i, b') := setInterval (TickSeconds UseRefDemo) b in
    (mkState (seconds s) true (Some i) (autoSaveText s) (autoSaveTimeoutRef s)
             (lastSaved s), b')
  else (s, b).

Definition stopTimer (s : State) (b : Browser) : State * Browser :=
  match truthyId (timerRef s) with
  | Some i =>
      (mkState (seconds s) false None (autoSaveText s) (autoSaveTimeoutRef s)
               (lastSaved s), clearInterval i b)
  | None => (s, b)
  end.

Definition resetTimer (s : State) (b : Browser) : State * Browser :=
  let '(s', b') := stopTimer s b in
  (mkState 0 (isRunning s') (timerRef s') (autoSaveText s')
           (autoSaveTimeoutRef s') (lastSaved s'), b').

Definition handleAutoSaveChange (value : string) (s : State) (b : Browser)
  : State * Browser :=
  let b1 := clearIfSet (autoSaveTimeoutRef s) b in
  let '(i, b2) := setTimeout (AutoSaved value) b1 in
  (mkState (seconds s) (isRunning s) (timerRef s) value (Some i) (lastSaved s), b2).

Inductive Event : Set :=
| ClickStart                      (* onClick={startTimer} *)
| ClickStop                       (* onClick={stopTimer} *)
| ClickReset                      (* onClick={resetTimer} *)
| ChangeAutoSave (value : string) (* onChange={(e) => handleAutoSaveChange(e.target.value)} *)
| Fired (i : nat) (now : nat).    (* the browser fires timer [i] at time [now] *)

Definition run (cb : Callback) (now : nat) (s : State) : State :=
  match cb with
  | TickSeconds UseRefDemo =>
      mkState (S (seconds s)) (isRunning s) (timerRef s) (autoSaveText s)
              (autoSaveTimeoutRef s) (lastSaved s)
  | AutoSaved _ =>
      mkState (seconds s) (isRunning s) (timerRef s) (autoSaveText s)
              (autoSaveTimeoutRef s) (Some now)
  | _ => s
  end.

Definition handle (ev : Event) (s : State) (b : Browser) : State * Browser :=
  match ev with
  | ClickStart => startTimer s b
  | ClickStop => stopTimer s b
  | ClickReset => resetTimer s b
  | ChangeAutoSave value => handleAutoSaveChange value s b
  | Fired i now =>
      match fire i b with
      | Some (cb, b') => (run cb now s, b')
      | None => (s, b)
      end
  end.

Fixpoint handleAll (evs : list Event) (s : State) (b : Browser) : State * Browser :=
  match evs with
  | [] => (s, b)
  | ev :: evs' => let '(s', b') := handle ev s b in handleAll evs' s' b'
  end.

(** The cleanup of the last [useEffect] of [UseRefDemo], run at unmount. *)
Definition unmount (s : State) (b : Browser) : Browser :=
  clearIfSet (autoSaveTimeoutRef s) (clearIfSet (timerRef s) b).
End RefDemo.

(** The local state of the mounted panel.  Only the two panels above have
    theirs spelled out. *)
Inductive Local : Set :=
| LocalCallbackDemo (s : CallbackDemo.State)
| LocalRefDemo (s : RefDemo.State)
| LocalOther (c : Component).

Definition componentOf (l : Local) : Component :=
  match l with
  | LocalCallbackDemo _ => UseCallbackDemo
  | LocalRefDemo _ => UseRefDemo
  | LocalOther c => c
  end.

Definition mount (c : Component) : Local :=
  match c with
  | UseCallbackDemo => LocalCallbackDemo CallbackDemo.init
  | UseRefDemo => LocalRefDemo RefDemo.init
  | _ => LocalOther c
  end.

Definition unmount (l : Local) (b : Browser) : Browser :=
  match l with
  | LocalCallbackDemo s => CallbackDemo.unmount s b
  | LocalRefDemo s => RefDemo.unmount s b
  | LocalOther _ => b
  end.

(** The page: the state of the Shell, the panel instance in the content
    area, and the browser. *)
Record Page : Type := mkPage {
  nav : NavigationState;
  panel : option Local;
  browser : Browser
}.

(** The component [renderHookDemo] asks for, if it is one. *)
Definition wanted (st : NavigationState) : option Component :=
  match elemType (renderHookDemo (H:=unit) st) with
  | Some (Comp c) => Some c
  | _ => None
  end.

(** A render of [App] in state [st] is committed: when the content area
    asks for the component that is mounted, the instance stays; otherwise
    the old instance is unmounted and the new one mounted. *)
Definition commit (st : NavigationState) (p : Page) : Page :=
  match panel p, wanted st with
  | Some l, Some c =>
      if decide (componentOf l = c) then mkPage st (Some l) (browser p)
      else mkPage st (Some (mount c)) (unmount l (browser p))
  | Some l, None => mkPage st None (unmount l (browser p))
  | None, Some c => mkPage st (Some (mount c)) (browser p)
  | None, None => mkPage st None (browser p)
  end.

Definition firstPage : Page :=
  commit initialState (mkPage initialState None freshBrowser).

(** A click on the row of the Selector with key [k]. *)
Definition selectTopic (cn : list ClassValue -> string) (k : HookType) (p : Page) : Page :=
  match clickRow (Sidebar cn (AppSidebarProps (nav p))) k with
  | Some h => commit (h (nav p)) p
  | None => p
  end.

(** An event inside the mounted [UseCallbackDemo]. *)
Definition callbackDemoEvent (ev : CallbackDemo.Event) (p : Page) : Page :=
  match panel p with
  | Some (LocalCallbackDemo s) =>
      let '(s', b') := CallbackDemo.handle ev s (browser p) in
      mkPage (nav p) (Some (LocalCallbackDemo s')) b'
  | _ => p
  end.

(** An event inside the mounted [UseRefDemo]. *)
Definition refDemoEvent (ev : RefDemo.Event) (p : Page) : Page :=
  match panel p with
  | Some (LocalRefDemo s) =>
      let '(s', b') := RefDemo.handle ev s (browser p) in
      mkPage (nav p) (Some (LocalRefDemo s')) b'
  | _ => p
  end.

(** The trace: pick useCallback, start its timer, pick useRef. *)
Definition leakTrace (cn : list ClassValue -> string) : Page :=
  selectTopic cn "useRef"
    (callbackDemoEvent CallbackDemo.ClickStartStop
       (selectTopic cn "useCallback" firstPage)).

(** What ties the refs of [UseRefDemo] to the timer table: timer ids are
    below [nextTimer], which is positive; every timer of the panel is held
    by one of its two refs; and [timerRef] is empty while the timer is not
    running. *)
Definition refDemoInv (s : RefDemo.State) (b : Browser) : Prop :=
  1 <= nextTimer b /\
  (forall i, is_Some (timers b !! i) -> i < nextTimer b) /\
  (forall i k cb, timers b !! i = Some (k, cb) -> ownerOf cb = UseRefDemo ->
                  truthyId (RefDemo.timerRef s) = Some i \/
                  truthyId (RefDemo.autoSaveTimeoutRef s) = Some i) /\
  (RefDemo.isRunning s = false -> RefDemo.timerRef s = None).

(** ** The reducers of [UseReducerDemo]

    A reducer is a function from state and action to state; an action is a
    value of the tagged union the source declares.  [array.map],
    [array.filter] and [array.find] are [List.map], [List.filter] and
    [List.find]; an object used as a record of string keys is a [gmap]. *)

Module TodoList.

Record Todo : Set := mkTodo {
  id : string;
  text : string;
  completed : bool;
  priority : string
}.

Record TodoState : Set := mkTodoState {
  todos : list Todo;
  filter : string;
  editingId : option string
}.

Inductive TodoAction : Set :=
| ADD_TODO (text priority : string)
| TOGGLE_TODO (payload : string)
| DELETE_TODO (payload : string)
| EDIT_TODO (payload : string)
| UPDATE_TODO (id text : string)
| CANCEL_EDIT
| SET_FILTER (payload : string)
| CLEAR_COMPLETED
| SET_PRIORITY (id priority : string).

(** [now] is what [Date.now().toString()] returns when the reducer
    runs. *)
Definition todoReducer (now : string) (state : TodoState) (action : TodoAction)
  : TodoState :=
  match action with
  | ADD_TODO text priority =>
      mkTodoState (todos state ++ [mkTodo now text false priority])
                  (filter state) (editingId state)
  | TOGGLE_TODO payload =>
      mkTodoState
        (List.map (fun todo =>
                     if String.eqb (id todo) payload
                     then mkTodo (id todo) (text todo) (negb (completed todo))
                                 (priority todo)
                     else todo)
                  (todos state))
        (filter state) (editingId state)
  | DELETE_TODO payload =>
      mkTodoState
        (List.filter (fun todo => negb (String.eqb (id todo) payload)) (todos state))
        (filter state) (editingId state)
  | EDIT_TODO payload =>
      mkTodoState (todos state) (filter state) (Some payload)
  | UPDATE_TODO i t =>
      mkTodoState
        (List.map (fun todo =>
                     if String.eqb (id todo) i
                     then mkTodo (id todo) t (completed todo) (priority todo)
                     else todo)
                  (todos state))
        (filter state) None
  | CANCEL_EDIT =>
      mkTodoState (todos state) (filter state) None
  | SET_FILTER payload =>
      mkTodoState (todos state) payload (editingId state)
  | CLEAR_COMPLETED =>
      mkTodoState (List.filter (fun todo => negb (completed todo)) (todos state))
                  (filter state) (editingId state)
  | SET_PRIORITY i p =>
      mkTodoState
        (List.map (fun todo =>
                     if String.eqb (id todo) i
                     then mkTodo (id todo) (text todo) (completed todo) p
                     else todo)
                  (todos state))
        (filter state) (editingId state)
  end.

(** The initial state [UseReducerDemo] gives to [useReducer]. *)
Definition initialTodoState : TodoState :=
  mkTodoState [ mkTodo "1" "Learn useReducer" false "high";
                mkTodo "2" "Build todo app" true "medium" ]
              "all" None.

(** [filteredTodos], computed at every render from [todoState]. *)
Definition filteredTodos (todoState : TodoState) : list Todo :=
  List.filter
    (fun todo =>
       if String.eqb (filter todoState) "active" then negb (completed todo)
       else if String.eqb (filter todoState) "completed" then completed todo
       else true)
    (todos todoState).

(** The actions that edit todos in place: all but the three that add
    or remove. *)
Definition editsInPlace (action : TodoAction) : bool :=
  match action with
  | ADD_TODO _ _ | DELETE_TODO _ | CLEAR_COMPLETED => false
  | _ => true
  end.

End TodoList.

(** The numbers of JavaScript, with the operations and constants the
    shopping cart uses.  Nothing is assumed of them. *)
Class JSNumber : Type := {
  num : Type;
  num_0 : num;
  num_1 : num;
  num_0_08 : num;
  num_add : num -> num -> num;
  num_mul : num -> num -> num;
  num_le : num -> num -> bool
}.

(** Exact rationals, to run the cart on.  They are not the doubles of
    JavaScript; no property below depends on which numbers are used. *)
Definition RationalNumbers : JSNumber :=
  {| num := QArith_base.Q;
     num_0 := QArith_base.Qmake 0 1;
     num_1 := QArith_base.Qmake 1 1;
     num_0_08 := QArith_base.Qmake 2 25;
     num_add := QArith_base.Qplus;
     num_mul := QArith_base.Qmult;
     num_le := QArith_base.Qle_bool |}.

Module Cart.
Section WithNumbers.
Context `{JSNumber}.

Record CartItem : Type := mkCartItem {
  id : string;
  name : string;
  price : num;
  quantity : num
}.

Record CartState : Type := mkCartState {
  items : list CartItem;
  discount : num;
  shipping : num;
  tax : num
}.

Inductive CartAction : Type :=
| ADD_ITEM (id name : string) (price : num)
| REMOVE_ITEM (payload : string)
| UPDATE_QUANTITY (id : string) (quantity : num)
| APPLY_DISCOUNT (payload : num)
| SET_SHIPPING (payload : num)
| CLEAR_CART
| CALCULATE_TAX.

(** [items.reduce((sum, item) => sum + (item.price * item.quantity), 0)] *)
Definition subtotalOf (l : list CartItem) : num :=
  fold_left (fun sum item => num_add sum (num_mul (price item) (quantity item)))
            l num_0.

Definition cartReducer (state : CartState) (action : CartAction) : CartState :=
  match action with
  | ADD_ITEM i n p =>
      match List.find (fun item => String.eqb (id item) i) (items state) with
      | Some existingItem =>
          mkCartState
            (List.map (fun item =>
                         if String.eqb (id item) i
                         then mkCartItem (id item) (name item) (price item)
                                         (num_add (quantity item) num_1)
                         else item)
                      (items state))
            (discount state) (shipping state) (tax state)
      | None =>
          mkCartState (items state ++ [mkCartItem i n p num_1])
                      (discount state) (shipping state) (tax state)
      end
  | REMOVE_ITEM payload =>
      mkCartState
        (List.filter (fun item => negb (String.eqb (id item) payload)) (items state))
        (discount state) (shipping state) (tax state)
  | UPDATE_QUANTITY i q =>
      if num_le q num_0 then
        mkCartState
          (List.filter (fun item => negb (String.eqb (id item) i)) (items state))
          (discount state) (shipping state) (tax state)
      else
        mkCartState
          (List.map (fun item =>
                       if String.eqb (id item) i
                       then mkCartItem (id item) (name item) (price item) q
                       else item)
                    (items state))
          (discount state) (shipping state) (tax state)
  | APPLY_DISCOUNT payload =>
      mkCartState (items state) payload (shipping state) (tax state)
  | SET_SHIPPING payload =>
      mkCartState (items state) (discount state) payload (tax state)
  | CLEAR_CART =>
      mkCartState [] num_0 num_0 (tax state)
  | CALCULATE_TAX =>
      mkCartState (items state) (discount state) (shipping state)
                  (num_mul (subtotalOf (items state)) num_0_08)
  end.

Definition isCalculateTax (action : CartAction) : bool :=
  match action with
  | CALCULATE_TAX => true
  | _ => false
  end.

(** The initial state [UseReducerDemo] gives to [useReducer]. *)
Definition initialCartState : CartState := mkCartState [] num_0 num_0 num_0.

Fixpoint dispatchAll (state : CartState) (actions : list CartAction) : CartState :=
  match actions with
  | [] => state
  | action :: rest => dispatchAll (cartReducer state action) rest
  end.

(** [useShoppingCart] of [UseDebugValueDemo]: the updaters its three
    callbacks give to [setItems]. *)
Definition addItem (i n : string) (p : num) (prev : list CartItem) : list CartItem :=
  match List.find (fun it => String.eqb (id it) i) prev with
  | Some existing =>
      List.map (fun it =>
                  if String.eqb (id it) i
                  then mkCartItem (id it) (name it) (price it)
                                  (num_add (quantity it) num_1)
                  else it)
               prev
  | None => prev ++ [mkCartItem i n p num_1]
  end.

Definition removeItem (i : string) (prev : list CartItem) : list CartItem :=
  List.filter (fun item => negb (String.eqb (id item) i)) prev.

Definition clear (prev : list CartItem) : list CartItem := [].
End WithNumbers.
End Cart.

(** Two of the [products] of [UseReducerDemo] as lines of a cart, and a
    cart holding given lines, over the rationals. *)
Definition reactBook : Cart.CartItem (H:=RationalNumbers) :=
  Cart.mkCartItem (H:=RationalNumbers) "1" "React Book"
    (QArith_base.Qmake 2999 100) (QArith_base.Qmake 1 1).

Definition typeScriptGuide : Cart.CartItem (H:=RationalNumbers) :=
  Cart.mkCartItem (H:=RationalNumbers) "2" "TypeScript Guide"
    (QArith_base.Qmake 3999 100) (QArith_base.Qmake 1 1).

Definition cartOf (lines : list (Cart.CartItem (H:=RationalNumbers)))
  : Cart.CartState (H:=RationalNumbers) :=
  Cart.mkCartState (H:=RationalNumbers) lines
    (QArith_base.Qmake 0 1) (QArith_base.Qmake 0 1) (QArith_base.Qmake 0 1).

Module Form.

Record FormState : Type := mkFormState {
  values : gmap string string;
  errors : gmap string string;
  touched : gmap string bool;
  isSubmitting : bool;
  isValid : bool
}.

Inductive FormAction : Set :=
| SET_FIELD (field value : string)
| SET_ERROR (field error : string)
| CLEAR_ERROR (payload : string)
| TOUCH_FIELD (payload : string)
| SET_SUBMITTING (payload : bool)
| VALIDATE_FORM
| RESET_FORM.

Section WithRegExp.
(** [/\S+@\S+\.\S+/.test(text)] *)
Variable email_test : string -> bool.

(** The [errors] object [VALIDATE_FORM] builds from the values. *)
Definition validationErrors (values : gmap string string) : gmap string string :=
  let errors0 : gmap string string := ∅ in
  let errors1 :=
    if negb (truthy (values !! "name"))
    then <["name" := "Name is required"]> errors0 else errors0 in
  let errors2 :=
    if negb (truthy (values !! "email"))
    then <["email" := "Email is required"]> errors1
    else if negb (email_test (default EmptyString (values !! "email")))
         then <["email" := "Email is invalid"]> errors1 else errors1 in
  if negb (truthy (values !! "phone"))
  then <["phone" := "Phone is required"]> errors2 else errors2.

Definition formReducer (state : FormState) (action : FormAction) : FormState :=
  match action with
  | SET_FIELD field value =>
      mkFormState (<[field := value]> (values state)) (errors state)
                  (touched state) (isSubmitting state) (isValid state)
  | SET_ERROR field error =>
      mkFormState (values state) (<[field := error]> (errors state))
                  (touched state) (isSubmitting state) (isValid state)
  | CLEAR_ERROR payload =>
      mkFormState (values state) (delete payload (errors state))
                  (touched state) (isSubmitting state) (isValid state)
  | TOUCH_FIELD payload =>
      mkFormState (values state) (errors state)
                  (<[payload := true]> (touched state))
                  (isSubmitting state) (isValid state)
  | SET_SUBMITTING payload =>
      mkFormState (values state) (errors state) (touched state) payload
                  (isValid state)
  | VALIDATE_FORM =>
      let errors := validationErrors (values state) in
      mkFormState (values state) errors (touched state) (isSubmitting state)
                  (bool_decide (size errors = 0))
  | RESET_FORM =>
      mkFormState ∅ ∅ ∅ false false
  end.

Definition initialFormState : FormState := mkFormState ∅ ∅ ∅ false false.

Fixpoint dispatchAll (state : FormState) (actions : list FormAction) : FormState :=
  match actions with
  | [] => state
  | action :: rest => dispatchAll (formReducer state action) rest
  end.

(** [handleFormSubmit], a closure of the render whose state is
    [formState]: the actions it dispatches before its [await], and the
    actions it dispatches once the two seconds have passed. *)
Definition handleFormSubmit (formState : FormState)
  : list FormAction * list FormAction :=
  if isValid formState
  then ([VALIDATE_FORM; SET_SUBMITTING true], [SET_SUBMITTING false; RESET_FORM])
  else ([VALIDATE_FORM], []).
End WithRegExp.

(** The actions the inputs of the form dispatch while the user edits,
    and [SET_SUBMITTING]: all but [VALIDATE_FORM] and [RESET_FORM]. *)
Definition isEdit (action : FormAction) : bool :=
  match action with
  | VALIDATE_FORM | RESET_FORM => false
  | _ => true
  end.

(** A test for the pattern on text without white space beyond ASCII:
    somewhere a non-space character, an at sign, one or more non-space
    characters, a dot and a non-space character. *)
Definition is_space (c : ascii) : bool :=
  let n := nat_of_ascii c in
  (Nat.eqb n 32) || ((Nat.leb 9 n) && (Nat.leb n 13)).

Fixpoint after_at (seen : bool) (l : list ascii) : bool :=
  match l with
  | c :: r =>
      if is_space c then false
      else (seen && Ascii.eqb c "." &&
            match r with d :: _ => negb (is_space d) | [] => false end)
           || after_at true r
  | [] => false
  end.

Fixpoint scan_at (prev : bool) (l : list ascii) : bool :=
  match l with
  | c :: r => (Ascii.eqb c "@" && prev && after_at false r)
              || scan_at (negb (is_space c)) r
  | [] => false
  end.

Definition email_test_ascii (text : string) : bool :=
  scan_at false (String.list_ascii_of_string text).

End Form.

(** ** [useLocalStorage]: the write

    [JSON.stringify] returns the text of a value or throws;
    [localStorage.setItem] stores the text under the key unless the
    browser refuses the write (the store is full, say), in which case it
    throws. *)

Section UseLocalStorageWrite.
Variable JSValue : Type.
Variable JSON_stringify : JSValue -> Completion string.
Variable setItem_throws : gmap string string -> string -> string -> option Error.

Definition JSON_stringify_js (v : JSValue) : JS string :=
  fun console => (JSON_stringify v, console).

(** [window.localStorage.setItem(key, value)]: the window it leaves. *)
Definition setItem (window : Window) (key value : string) : JS Window :=
  match localStorage window with
  | Some store =>
      match setItem_throws store key value with
      | Some e => throw e
      | None => ret (mkWindow (Some (<[key := value]> store)))
      end
  | None => throw SecurityError
  end.

(** The argument of [setValue]: a value, or a function of the stored
    value. *)
Inductive SetStateAction : Type :=
| NewValue (v : JSValue)
| Updater (f : JSValue -> JSValue).

(** [setValue(value)], a closure of the render whose stored value is
    [storedValue]: the stored value of the next render and the window.
    [setStoredValue(valueToStore)] comes before the write in the [try]
    block, so the new stored value stands whether the write throws or
    not. *)
Definition setValue (key : string) (storedValue : JSValue) (window : Window)
    (value : SetStateAction) : JS (JSValue * Window) :=
  let valueToStore :=
    match value with
    | NewValue v => v
    | Updater f => f storedValue
    end in
  try_catch
    (text <- JSON_stringify_js valueToStore ;;
     window' <- setItem window key text ;;
     ret (valueToStore, window'))
    (fun error =>
       _ <- console_error
              ("Error setting localStorage key " +:+ dquote +:+ key +:+ dquote +:+ ":")
              error ;;
       ret (valueToStore, window)).
End UseLocalStorageWrite.

(** [valueToStore] in [setValue]. *)
Definition valueToStoreOf {JSValue} (storedValue : JSValue)
    (value : SetStateAction JSValue) : JSValue :=
  match value with
  | NewValue _ v => v
  | Updater _ f => f storedValue
  end.

(** A [JSON.stringify] for the values of [JSON.parse] above: tokens are
    written back as they were read. *)
Fixpoint JSON_print (v : JSON.value) : string :=
  match v with
  | JSON.Null => "null"
  | JSON.Bool true => "true"
  | JSON.Bool false => "false"
  | JSON.Number literal => literal
  | JSON.Str body => dquote +:+ body +:+ dquote
  | JSON.Array elements =>
      "[" +:+ String.concat "," (List.map JSON_print elements) +:+ "]"
  | JSON.Object members =>
      "{" +:+ String.concat ","
                (List.map (fun m => dquote +:+ fst m +:+ dquote +:+ ":"
                                    +:+ JSON_print (snd m)) members)
          +:+ "}"
  end.

(** ** [useTimer] of [UseDebugValueDemo]

    [timeLeft] is an integer: the caller passes 30 and the hook only
    subtracts one, and on integers of this size the arithmetic of
    JavaScript is that of [Z]. *)

Module Countdown.
#[local] Open Scope Z_scope.

Record State : Set := mkState {
  timeLeft : Z;
  isRunning : bool
}.

Definition init (duration : Z) : State := mkState duration false.

Definition start (s : State) : State := mkState (timeLeft s) true.
Definition pause (s : State) : State := mkState (timeLeft s) false.
Definition reset (duration : Z) (s : State) : State := mkState duration false.

(** The effect leaves a timeout pending unless
    [!isRunning || timeLeft === 0]. *)
Definition armed (s : State) : bool :=
  negb (negb (isRunning s) || (timeLeft s =? 0)).

(** The timeout fires: [setTimeLeft(prev => ...)], which also stops the
    timer when [prev <= 1]. *)
Definition fired (s : State) : State :=
  if timeLeft s <=? 1 then mkState 0 false
  else mkState (timeLeft s - 1) (isRunning s).

(** A second passes: the pending timeout, if there is one, fires. *)
Definition second (s : State) : State := if armed s then fired s else s.

Fixpoint seconds (n : nat) (s : State) : State :=
  match n with
  | O => s
  | S n' => seconds n' (second s)
  end.
End Countdown.

(** ** [UseRefDemo]: the previous count and the video player

    [count] and [currentTime] are integers: they start at zero and the
    panel only adds or subtracts one, or seeks to 10. *)

Module PreviousCount.
#[local] Open Scope Z_scope.

(** [count] and [prevCountRef.current]; the ref starts as [null]. *)
Record State : Set := mkState {
  count : Z;
  prevCountRef : option Z
}.

Definition init : State := mkState 0 None.

(** What a render of the panel shows: the count, and
    [prevCountRef.current ?? 'none']. *)
Definition shown (s : State) : Z * option Z := (count s, prevCountRef s).

(** The effect without dependencies, run after every render:
    [prevCountRef.current = count]. *)
Definition afterRender (s : State) : State := mkState (count s) (Some (count s)).

(** What makes the panel render again: a click on minus or plus, or a
    change of any other state of the panel (a tick of its timer, a key
    typed). *)
Inductive Event : Set :=
| ClickMinus   (* onClick={() => setCount(count - 1)} *)
| ClickPlus    (* onClick={() => setCount(count + 1)} *)
| OtherState.

Definition update (ev : Event) (s : State) : State :=
  match ev with
  | ClickMinus => mkState (count s - 1) (prevCountRef s)
  | ClickPlus => mkState (count s + 1) (prevCountRef s)
  | OtherState => s
  end.

(** One event: the state is updated, the panel renders, the effect
    runs. *)
Definition step (ev : Event) (s : State) : (Z * option Z) * State :=
  (shown (update ev s), afterRender (update ev s)).

Fixpoint run (evs : list Event) (s : State) : State :=
  match evs with
  | [] => s
  | ev :: evs' => run evs' (snd (step ev s))
  end.

(** The panel after its first render. *)
Definition mounted : State := afterRender init.
End PreviousCount.

Module VideoPlayer.
#[local] Open Scope Z_scope.

Definition duration : Z := 100.

Record State : Set := mkState {
  isPlaying : bool;
  currentTime : Z
}.

Definition init : State := mkState false 0.

(** The handle [useImperativeHandle] gives to the parent. *)
Definition play (s : State) : State := mkState true (currentTime s).
Definition pause (s : State) : State := mkState false (currentTime s).
Definition seek (time : Z) (s : State) : State := mkState (isPlaying s) time.

(** The interval of the effect exists while [isPlaying]; when it fires
    it runs [setCurrentTime(prev => ...)], which also stops the player
    when [prev >= duration]. *)
Definition tick (s : State) : State :=
  if isPlaying s then
    if currentTime s >=? duration then mkState false duration
    else mkState (isPlaying s) (currentTime s + 1)
  else s.

Fixpoint ticks (n : nat) (s : State) : State :=
  match n with
  | O => s
  | S n' => ticks n' (tick s)
  end.
End VideoPlayer.

(** ** More on the timers of the two panels *)



(** The auto-save of [UseRefDemo]: every auto-save timer of the table is
    the timeout [autoSaveTimeoutRef] holds, for the text typed last. *)
Definition autoSaveInv (s : RefDemo.State) (b : Browser) : Prop :=
  forall i k v, timers b !! i = Some (k, AutoSaved v) ->
                k = Timeout /\ RefDemo.autoSaveTimeoutRef s = Some i /\
                v = RefDemo.autoSaveText s.

(** The handler of the menu button in the header of a rendered [App]. *)
Definition menuButtonOf {H} (e : Element H) : option H :=
  match flat_map (select (fun t => bool_decide (t = Comp Button)))
                 (select (isTag "header") e) with
  | b :: _ => onClickOf b
  | [] => None
  end.

(** ** Proof steps used more than once *)

(** Closed decidable facts, by evaluation of their decision procedure. *)
Ltac decide_by_compute := apply (bool_decide_unpack _); vm_compute; exact I.

(** The four parts of [refDemoInv], as four goals. *)
Ltac split_inv := unfold refDemoInv; refine (conj _ (conj _ (conj _ _))).


(** * Properties *)

(** ** Sanity checks of the embedding on concrete inputs *)

Example render_useMemo :
  renderHookDemo (H:=unit) (mkNav "useMemo" true) = Elem (Comp UseMemoDemo) [] None [].
Proof. reflexivity. Qed.

Example render_unknown :
  renderHookDemo (H:=unit) (mkNav "useTransition" false) = placeholder.
Proof. reflexivity. Qed.

Example rows_keys :
  List.map (attr "key") (rowsOf (Sidebar cn_join (spyProps "useState" true)))
  = List.map Some HookTypes.
Proof. reflexivity. Qed.

Example click_useMemo_row :
  (fun h => h []) <$> clickRow (Sidebar cn_join (spyProps "useState" true)) "useMemo"
  = Some [CallSelect "useMemo"; CallClose].
Proof. reflexivity. Qed.

Example app_handlers_closed :
  length (handlers (App cn_join initialState)) = 12.
Proof. reflexivity. Qed.

Example app_handlers_open :
  length (handlers (App cn_join (mkNav "useRef" true))) = 13.
Proof. reflexivity. Qed.

(** ** The dispatch [renderHookDemo] *)

Lemma eqb_false_of_ne (a b : string) : a <> b -> String.eqb a b = false.
Proof. intros Hne. apply String.eqb_neq. exact Hne. Qed.

Lemma not_in_cons_inv {A} (x a : A) (l : list A) :
  x ∉ a :: l -> x <> a /\ x ∉ l.
Proof. intros Hn. split; intros Hx; apply Hn; [subst; left | right; exact Hx]. Qed.

(** An id outside the union takes the [default:] branch. *)
Lemma renderHookDemo_default {H} (h : HookType) (b : bool) :
  h ∉ HookTypes -> renderHookDemo (H:=H) (mkNav h b) = placeholder.
Proof.
  unfold HookTypes. intros Hn.
  repeat (apply not_in_cons_inv in Hn; destruct Hn as [?Hne Hn]).
  unfold renderHookDemo. cbn [selectedHook].
  repeat (rewrite eqb_false_of_ne by assumption).
  reflexivity.
Qed.

(** An id of the union takes its own [case], which returns a panel. *)
Lemma renderHookDemo_panel {H} (h : HookType) (b : bool) :
  h ∈ HookTypes ->
  exists c, isPanel (Comp c) = true /\
            renderHookDemo (H:=H) (mkNav h b) = Elem (Comp c) [] None [].
Proof.
  unfold HookTypes. intros Hin.
  repeat (apply elem_of_cons in Hin; destruct Hin as [-> | Hin]);
    [ eexists; split; [| reflexivity]; reflexivity .. | ].
  apply elem_of_nil in Hin. destruct Hin.
Qed.

(** C1. The dispatch of the Shell is total: whatever string is selected,
    [renderHookDemo] returns an element that is not empty, and for a
    string that is not one of the ten ids of [HookType] that element is
    the placeholder of the [default:] branch. *)
Theorem renderHookDemo_total {H} (h : HookType) (b : bool) :
  (exists t a cs,
      renderHookDemo (H:=H) (mkNav h b) = Elem t a None cs /\
      rendersNothing (renderHookDemo (H:=H) (mkNav h b)) = false) /\
  (h ∉ HookTypes -> renderHookDemo (H:=H) (mkNav h b) = placeholder).
Proof.
  split; [| apply renderHookDemo_default].
  destruct (decide (h ∈ HookTypes)) as [Hin | Hn].
  - destruct (renderHookDemo_panel (H:=H) h b Hin) as (c & _ & ->).
    do 3 eexists. split; reflexivity.
  - rewrite (renderHookDemo_default h b Hn).
    do 3 eexists. split; reflexivity.
Qed.

Lemma renderHookDemo_total_witness :
  ("useTransition" ∉ HookTypes) /\
  renderHookDemo (H:=unit) (mkNav "useTransition" true) = placeholder.
Proof.
  assert (Hn : "useTransition" ∉ HookTypes) by decide_by_compute.
  split; [exact Hn |].
  exact (proj2 (renderHookDemo_total (H:=unit) "useTransition" true) Hn).
Defined.

Lemma catalog_ids : List.map id hooks = HookTypes.
Proof. reflexivity. Qed.

(** C6. For each of the ten catalog ids [renderHookDemo] returns a
    non-empty element, and two distinct catalog ids never get the same
    element. *)
Theorem renderHookDemo_catalog_distinct {H} (a b : HookType) (oa ob : bool) :
  a ∈ List.map id hooks -> b ∈ List.map id hooks ->
  rendersNothing (renderHookDemo (H:=H) (mkNav a oa)) = false /\
  (a <> b ->
   renderHookDemo (H:=H) (mkNav a oa) <> renderHookDemo (H:=H) (mkNav b ob)).
Proof.
  rewrite catalog_ids. unfold HookTypes. intros Ha Hb.
  repeat (apply elem_of_cons in Ha; destruct Ha as [-> | Ha]);
    try (apply elem_of_nil in Ha; destruct Ha);
    (split; [reflexivity |]);
    repeat (apply elem_of_cons in Hb; destruct Hb as [-> | Hb]);
    try (apply elem_of_nil in Hb; destruct Hb);
    intros Hne Heq; solve [ apply Hne; reflexivity | vm_compute in Heq; discriminate Heq ].
Qed.

Lemma renderHookDemo_catalog_distinct_witness :
  rendersNothing (renderHookDemo (H:=unit) (mkNav "useState" false)) = false /\
  renderHookDemo (H:=unit) (mkNav "useState" false)
  <> renderHookDemo (H:=unit) (mkNav "useRef" true).
Proof.
  assert (Ha : "useState" ∈ List.map id hooks) by decide_by_compute.
  assert (Hb : "useRef" ∈ List.map id hooks) by decide_by_compute.
  destruct (renderHookDemo_catalog_distinct (H:=unit) "useState" "useRef" false true Ha Hb)
    as [Hne Hd].
  split; [exact Hne | apply Hd; discriminate].
Defined.

(** ** The Shell *)

Section Shell.
Variable cn : list ClassValue -> string.

(** The Selector mounts no panel: the only panel of a rendered [App] is
    the one [renderHookDemo] returns. *)
Lemma mounted_App (st : NavigationState) :
  mounted (App cn st) = mounted (renderHookDemo st).
Proof.
  unfold mounted, App. destruct st as [h [|]]; cbn; rewrite !app_nil_r; reflexivity.
Qed.

Lemma mounted_panel (st : NavigationState) :
  selectedHook st ∈ HookTypes ->
  exists c, isPanel (Comp c) = true /\
            mounted (App cn st) = [Elem (Comp c) [] None []].
Proof.
  intros Hin. rewrite mounted_App. destruct st as [h b]. cbn in Hin.
  destruct (renderHookDemo_panel (H:=NavigationState -> NavigationState) h b Hin)
    as (c & Hc & ->).
  exists c. split; [exact Hc |].
  unfold mounted. cbn [select isPanel flat_map app] in *. rewrite Hc. reflexivity.
Qed.

(** C5. At mount the state is [selectedHook = "useState"], the id of the
    first catalog entry, and [sidebarOpen = false]; the content area of
    the first render holds the useState panel and nothing else is
    mounted. *)
Theorem initial_mount :
  initialState = {| selectedHook := "useState"; sidebarOpen := false |} /\
  id <$> head hooks = Some (selectedHook initialState) /\
  childrenOf <$> mainOf (App cn initialState)
    = [[Elem (Comp UseStateDemo) [] None []]] /\
  mounted (App cn initialState) = [Elem (Comp UseStateDemo) [] None []].
Proof. repeat split. Qed.
(** C10. The mounted panel is a function of [selectedHook] alone: two
    states that agree on it render the same panel whatever their
    [sidebarOpen], so setting [sidebarOpen] never changes what is
    mounted. *)
Theorem panel_independent_of_sidebar (st1 st2 : NavigationState) :
  selectedHook st1 = selectedHook st2 ->
  renderHookDemo (H:=NavigationState -> NavigationState) st1 = renderHookDemo st2 /\
  mounted (App cn st1) = mounted (App cn st2) /\
  (forall b, mounted (App cn (setSidebarOpen b st1)) = mounted (App cn st2)).
Proof.
  intros Hsel.
  assert (Hr : forall a b : NavigationState, selectedHook a = selectedHook b ->
               renderHookDemo (H:=NavigationState -> NavigationState) a
               = renderHookDemo b).
  { intros a b Hab. unfold renderHookDemo. rewrite Hab. reflexivity. }
  split; [apply Hr; exact Hsel |].
  split; [rewrite !mounted_App; f_equal; apply Hr; exact Hsel |].
  intros b. rewrite !mounted_App. f_equal. apply Hr. exact Hsel.
Qed.

(** No branch of the dispatch attaches a handler: the panels get no
    props. *)
Lemma renderHookDemo_handlers {H} (st : NavigationState) :
  handlers (renderHookDemo (H:=H) st) = [].
Proof.
  unfold renderHookDemo.
  repeat (destruct (String.eqb _ _); [reflexivity |]). reflexivity.
Qed.

(** The handlers of a rendered [App]: the menu button toggles, the
    overlay and the close button close, a row selects and then closes. *)
Lemma App_handlers (st : NavigationState) (h : NavigationState -> NavigationState) :
  In h (handlers (App cn st)) ->
  h = (fun w => setSidebarOpen (negb (sidebarOpen st)) w) \/
  h = (fun w => setSidebarOpen false w) \/
  exists k, In k (List.map id hooks) /\
            h = (fun w => setSidebarOpen false (setSelectedHook k w)).
Proof.
  unfold App. destruct st as [sel [|]]; cbn;
    rewrite renderHookDemo_handlers; cbn; intros Hin;
    repeat (destruct Hin as [<- | Hin];
            [ first [ left; reflexivity
                    | right; left; reflexivity
                    | right; right; eexists; split; [| reflexivity]; cbn; tauto ]
            | ]);
    destruct Hin.
Qed.

Lemma click_selected (st st' : NavigationState) :
  click cn st st' ->
  selectedHook st' = selectedHook st \/ selectedHook st' ∈ List.map id hooks.
Proof.
  intros (h & Hin & ->).
  destruct (App_handlers st h Hin) as [-> | [-> | (k & Hk & ->)]];
    [left; reflexivity | left; reflexivity |].
  right. cbn [selectedHook setSidebarOpen setSelectedHook].
  apply list_elem_of_In. exact Hk.
Qed.

Lemma reachable_selected (st : NavigationState) :
  reachable cn st -> selectedHook st ∈ List.map id hooks.
Proof.
  induction 1 as [| st st' _ IH Hclick].
  - decide_by_compute.
  - destruct (click_selected st st' Hclick) as [-> | Hin]; assumption.
Qed.

(** C3. In every state the Shell can reach by clicks, [selectedHook] is
    one of the ten catalog ids, and the rendered tree mounts exactly one
    panel. *)
Theorem selected_always_catalog (st : NavigationState) :
  reachable cn st ->
  selectedHook st ∈ List.map id hooks /\
  exists c, isPanel (Comp c) = true /\
            mounted (App cn st) = [Elem (Comp c) [] None []].
Proof.
  intros Hr. pose proof (reachable_selected st Hr) as Hin.
  split; [exact Hin |]. apply mounted_panel. rewrite <- catalog_ids. exact Hin.
Qed.
End Shell.

Lemma panel_independent_of_sidebar_witness :
  mounted (App cn_join (mkNav "useMemo" true))
  = mounted (App cn_join (mkNav "useMemo" false)).
Proof.
  exact (proj1 (proj2 (panel_independent_of_sidebar cn_join
                         (mkNav "useMemo" true) (mkNav "useMemo" false) eq_refl))).
Defined.

(** The [n]-th handler of the rendered tree can be clicked. *)
Lemma click_nth cn (st : NavigationState) (n : nat) h :
  nth_error (handlers (App cn st)) n = Some h -> click cn st (h st).
Proof. intros Hn. exists h. split; [eapply nth_error_In; exact Hn | reflexivity]. Qed.

(** The scenario of the specification: open the sidebar with the menu
    button, then pick useReducer from the list. *)
Lemma reachable_useReducer : reachable cn_join (mkNav "useReducer" false).
Proof.
  apply (reachable_click cn_join (mkNav "useState" true)).
  - apply (reachable_click cn_join initialState); [apply reachable_init |].
    exact (click_nth cn_join initialState 0 _ eq_refl).
  - exact (click_nth cn_join (mkNav "useState" true) 6 _ eq_refl).
Defined.

Lemma selected_always_catalog_witness :
  reachable cn_join (mkNav "useReducer" false) /\
  (selectedHook (mkNav "useReducer" false) ∈ List.map id hooks /\
   exists c, isPanel (Comp c) = true /\
             mounted (App cn_join (mkNav "useReducer" false))
             = [Elem (Comp c) [] None []]).
Proof.
  split; [exact reachable_useReducer |].
  exact (selected_always_catalog cn_join _ reachable_useReducer).
Defined.

(** ** The Selector *)

Section SelectorProperties.
Variable cn : list ClassValue -> string.

(** The rows are the images of the catalog entries, in catalog order. *)
Lemma rowsOf_Sidebar {W} (props : @SidebarProps W) :
  rowsOf (Sidebar cn props) = List.map (SidebarRow cn props) hooks.
Proof. unfold rowsOf, Sidebar, SidebarOverlay. destruct (isOpen props); reflexivity. Qed.

(** C2. For every catalog entry, the Selector (drawn open) has exactly
    one row with that entry's id as key, and a click on it calls the
    selection callback once with that id and then the close callback
    once; with the callbacks of the Shell this leaves the id selected and
    the sidebar closed. *)
Theorem row_click_selects_then_closes (hook : HookInfo) (selected : HookType)
    (st : NavigationState) :
  In hook hooks ->
  length (filter (fun r => attr "key" r = Some (id hook))
                 (rowsOf (Sidebar cn (spyProps selected true)))) = 1 /\
  (exists h, clickRow (Sidebar cn (spyProps selected true)) (id hook) = Some h /\
             forall calls, h calls = calls ++ [CallSelect (id hook); CallClose]) /\
  (exists h, clickRow (Sidebar cn (AppSidebarProps st)) (id hook) = Some h /\
             h st = {| selectedHook := id hook; sidebarOpen := false |}).
Proof.
  intros Hin. unfold clickRow. rewrite !rowsOf_Sidebar.
  cbn in Hin.
  repeat (destruct Hin as [<- | Hin]);
    try (destruct Hin);
    (split; [reflexivity |]);
    (split;
     [ eexists; split;
       [ reflexivity | intros calls; cbn; rewrite <- app_assoc; reflexivity ]
     | eexists; split; reflexivity ]).
Qed.
(** C7. The overlay exists only while the Selector is open; a click on
    it runs the close callback and nothing else: no selection call is
    made, and in the Shell [sidebarOpen] becomes [false] while
    [selectedHook] keeps its value. *)
Theorem overlay_click_only_closes (selected : HookType) (st : NavigationState) :
  sidebarOpen st = true ->
  overlayOf (Sidebar cn (spyProps selected false)) = Some Falsy /\
  (exists ov h, overlayOf (Sidebar cn (spyProps selected true)) = Some ov /\
                handlers ov = [h] /\
                forall calls, h calls = calls ++ [CallClose]) /\
  (exists ov h, sidebarOf (App cn st) ≫= overlayOf = Some ov /\
                handlers ov = [h] /\
                sidebarOpen (h st) = false /\
                selectedHook (h st) = selectedHook st).
Proof.
  intros Hopen. split; [reflexivity |]. split.
  - do 2 eexists. split; [reflexivity |]. split; [reflexivity |].
    intros calls. reflexivity.
  - destruct st as [sel o]. cbn in Hopen. subst o.
    do 2 eexists. split; [reflexivity |]. split; [reflexivity |].
    split; reflexivity.
Qed.

(** C4. The Selector draws one row per catalog entry, in the order of
    the catalog, each with the badge of its category styled by
    [getCategoryColor]; Basic is green, Advanced blue, Performance
    purple, and any other category gets the gray default. *)
Theorem rows_in_catalog_order {W} (props : @SidebarProps W) (c : string) :
  c <> "Basic" -> c <> "Advanced" -> c <> "Performance" ->
  List.map (fun r => (attr "key" r, fst <$> badgeOf r)) (rowsOf (Sidebar cn props))
  = [ (Some "useState", Some "Basic");
      (Some "useEffect", Some "Basic");
      (Some "useContext", Some "Basic");
      (Some "useReducer", Some "Advanced");
      (Some "useCallback", Some "Performance");
      (Some "useMemo", Some "Performance");
      (Some "useRef", Some "Advanced");
      (Some "useImperativeHandle", Some "Advanced");
      (Some "useLayoutEffect", Some "Advanced");
      (Some "useDebugValue", Some "Advanced") ] /\
  Forall (fun r => exists cat,
              badgeOf r
              = Some (cat, Some (cn [CStr "text-xs"; CStr (getCategoryColor cat)])))
         (rowsOf (Sidebar cn props)) /\
  getCategoryColor "Basic" = "bg-green-100 text-green-800 hover:bg-green-200" /\
  getCategoryColor "Advanced" = "bg-blue-100 text-blue-800 hover:bg-blue-200" /\
  getCategoryColor "Performance" = "bg-purple-100 text-purple-800 hover:bg-purple-200" /\
  getCategoryColor c = "bg-gray-100 text-gray-800 hover:bg-gray-200".
Proof.
  intros Hb Ha Hp. rewrite rowsOf_Sidebar.
  split; [reflexivity |]. split.
  - unfold hooks. cbn [List.map].
    repeat (apply Forall_cons; split; [eexists; reflexivity |]).
    apply Forall_nil. exact I.
  - repeat (split; [reflexivity |]).
    unfold getCategoryColor. rewrite !eqb_false_of_ne by assumption. reflexivity.
Qed.
End SelectorProperties.

Lemma row_click_selects_then_closes_witness :
  exists h, clickRow (Sidebar cn_join (AppSidebarProps (mkNav "useState" true)))
                     "useReducer" = Some h /\
            h (mkNav "useState" true)
            = {| selectedHook := "useReducer"; sidebarOpen := false |}.
Proof.
  assert (Hin : In (mkHookInfo "useReducer" "useReducer"
                               "Complex state management" "Advanced") hooks)
    by (cbn; tauto).
  exact (proj2 (proj2 (row_click_selects_then_closes cn_join _ "useState"
                         (mkNav "useState" true) Hin))).
Defined.

Lemma overlay_click_only_closes_witness :
  exists ov h,
    sidebarOf (App cn_join (mkNav "useMemo" true)) ≫= overlayOf = Some ov /\
    handlers ov = [h] /\
    sidebarOpen (h (mkNav "useMemo" true)) = false /\
    selectedHook (h (mkNav "useMemo" true)) = "useMemo".
Proof.
  exact (proj2 (proj2 (overlay_click_only_closes cn_join "useMemo"
                         (mkNav "useMemo" true) eq_refl))).
Defined.

Lemma rows_in_catalog_order_witness :
  getCategoryColor "Experimental" = "bg-gray-100 text-gray-800 hover:bg-gray-200".
Proof.
  assert (Hb : "Experimental" <> "Basic") by discriminate.
  assert (Ha : "Experimental" <> "Advanced") by discriminate.
  assert (Hp : "Experimental" <> "Performance") by discriminate.
  exact (proj2 (proj2 (proj2 (proj2 (proj2
           (rows_in_catalog_order cn_join (spyProps "useState" false)
              "Experimental" Hb Ha Hp)))))).
Defined.

(** ** [useLocalStorage] *)

Example parse_object :
  JSON.parse "{ } " = Some (JSON.Object []) /\
  JSON.parse "[1, -2.5e3, true, null, [false]]"
  = Some (JSON.Array [JSON.Number "1"; JSON.Number "-2.5e3"; JSON.Bool true;
                      JSON.Null; JSON.Array [JSON.Bool false]]) /\
  JSON.parse ("{" +:+ dquote +:+ "theme" +:+ dquote +:+ ":"
              +:+ dquote +:+ "dark" +:+ dquote +:+ "}")
  = Some (JSON.Object [("theme", JSON.Str "dark")]).
Proof. repeat split. Qed.

Example parse_malformed :
  JSON.parse EmptyString = None /\ JSON.parse "{theme:" = None /\
  JSON.parse "[1,]" = None /\ JSON.parse "01" = None /\
  JSON.parse "true false" = None /\ JSON.parse "undefined" = None.
Proof. repeat split. Qed.

Section UseLocalStorageProperties.
Variable JSValue : Type.
Variable JSON_parse : string -> option JSValue.

(** What [JSON.parse] does on the empty text: a [SyntaxError]. *)
Hypothesis JSON_parse_empty : JSON_parse EmptyString = None.

Lemma truthy_parse (item : string) (v : JSValue) :
  JSON_parse item = Some v -> truthy (Some item) = true.
Proof.
  destruct item as [| c r]; [| reflexivity].
  rewrite JSON_parse_empty. discriminate.
Qed.

(** C8. Whatever the key, the default and the state of the storage, the
    read at mount completes normally.  Its value is the parsed stored
    value when the key holds a string that [JSON.parse] accepts, and the
    caller's default when the key is absent or holds a string that
    [JSON.parse] rejects. *)
Theorem useLocalStorage_init_fallback (window : Window) (key : string)
    (initialValue : JSValue) (console : list string) :
  exists v,
    fst (useLocalStorage_init JSValue JSON_parse window key initialValue console)
    = Normal v /\
    (forall store item parsed,
        localStorage window = Some store -> store !! key = Some item ->
        JSON_parse item = Some parsed -> v = parsed) /\
    (forall store,
        localStorage window = Some store -> store !! key = None ->
        v = initialValue) /\
    (forall store item,
        localStorage window = Some store -> store !! key = Some item ->
        JSON_parse item = None -> v = initialValue).
Proof.
  unfold useLocalStorage_init, try_catch, bind, getItem, JSON_parse_js.
  destruct window as [[store |]]; cbn [localStorage].
  - unfold ret at 1. destruct (store !! key) as [item |] eqn:Hitem.
    + change (default EmptyString (Some item)) with item.
      destruct (JSON_parse item) as [parsed |] eqn:Hparse.
      * rewrite (truthy_parse item parsed Hparse).
        exists parsed. split; [reflexivity |].
        repeat split; intros; congruence.
      * exists initialValue. split.
        -- destruct (truthy (Some item)); reflexivity.
        -- repeat split; intros; congruence.
    + exists initialValue. split; [reflexivity |].
      repeat split; intros; congruence.
  - exists initialValue. split; [reflexivity |].
    repeat split; intros; discriminate.
Qed.
End UseLocalStorageProperties.

(** The corrupted-storage scenario: the key holds text that is not JSON. *)
Lemma useLocalStorage_init_fallback_witness :
  JSON.parse EmptyString = None /\
  JSON.parse "{theme:" = None /\
  fst (useLocalStorage_init JSON.value JSON.parse
         (mkWindow (Some {[ "demo-preferences" := "{theme:" ]}))
         "demo-preferences" (JSON.Object [("theme", JSON.Str "light")]) [])
  = Normal (JSON.Object [("theme", JSON.Str "light")]).
Proof.
  split; [reflexivity |]. split; [reflexivity |].
  destruct (useLocalStorage_init_fallback JSON.value JSON.parse eq_refl
              (mkWindow (Some {[ "demo-preferences" := "{theme:" ]}))
              "demo-preferences" (JSON.Object [("theme", JSON.Str "light")]) [])
    as (v & Hv & _ & _ & Hbad).
  rewrite Hv. f_equal.
  apply (Hbad {[ "demo-preferences" := "{theme:" ]} "{theme:");
    [reflexivity | reflexivity | reflexivity].
Defined.

(** ** Swapping panels and their timers *)

Example leakTrace_steps :
  componentOf <$> panel firstPage = Some UseStateDemo /\
  panel (selectTopic cn_join "useCallback" firstPage)
    = Some (LocalCallbackDemo CallbackDemo.init) /\
  panel (callbackDemoEvent CallbackDemo.ClickStartStop
           (selectTopic cn_join "useCallback" firstPage))
    = Some (LocalCallbackDemo (CallbackDemo.mkState 0 true (Some 1))) /\
  panel (leakTrace cn_join) = Some (LocalRefDemo RefDemo.init) /\
  nav (leakTrace cn_join) = mkNav "useRef" false /\
  timers (browser (leakTrace cn_join)) !! 1
    = Some (Interval, TickSeconds UseCallbackDemo).
Proof. repeat split. Qed.

(** A click on a row commits the state with that row's id selected and
    the sidebar closed. *)
Lemma selectTopic_commit cn (k : HookType) (p : Page) :
  k ∈ List.map id hooks ->
  selectTopic cn k p = commit (mkNav k false) p.
Proof.
  intros Hk. unfold selectTopic, clickRow. rewrite rowsOf_Sidebar.
  rewrite catalog_ids in Hk. unfold HookTypes in Hk.
  repeat (apply elem_of_cons in Hk; destruct Hk as [-> | Hk]);
    [reflexivity .. |].
  apply elem_of_nil in Hk. destruct Hk.
Qed.

(** The swap itself: after a click on the row of a
    catalog id other than the one whose panel is mounted, the content area
    holds a fresh instance of that id's panel, and the browser is the one
    the unmount of the old instance left. *)
Lemma selectTopic_swaps cn (k : HookType) (p : Page) (old : Local) (c : Component) :
  k ∈ List.map id hooks ->
  panel p = Some old ->
  wanted (mkNav k false) = Some c ->
  componentOf old <> c ->
  selectTopic cn k p
  = mkPage (mkNav k false) (Some (mount c)) (unmount old (browser p)).
Proof.
  intros Hk Hold Hc Hne. rewrite (selectTopic_commit cn k p Hk).
  unfold commit. rewrite Hold, Hc.
  destruct (decide (componentOf old = c)) as [Heq | _]; [contradiction | reflexivity].
Qed.

(** C9. The code at the failing input.  The user picks useCallback,
    starts its timer and picks useRef: the content area then holds the
    useRef panel alone, yet the interval the useCallback panel started is
    still in the timer table, and each time the browser fires it the
    callback that sets the state of the unmounted panel runs and the
    interval stays.  The unmount of [UseCallbackDemo] clears nothing. *)
Theorem UseCallbackDemo_interval_survives_swap cn :
  nav (leakTrace cn) = mkNav "useRef" false /\
  panel (leakTrace cn) = Some (LocalRefDemo RefDemo.init) /\
  pending UseCallbackDemo (browser (leakTrace cn))
    = {[ 1 := (Interval, TickSeconds UseCallbackDemo) ]} /\
  fire 1 (browser (leakTrace cn))
    = Some (TickSeconds UseCallbackDemo, browser (leakTrace cn)).
Proof.
  unfold leakTrace.
  rewrite !selectTopic_commit by decide_by_compute.
  repeat split.
Qed.

(** *** [UseRefDemo] releases what it registered *)

Lemma truthyId_Some (r : option nat) (i : nat) :
  truthyId r = Some i -> r = Some i /\ 1 <= i.
Proof. destruct r as [[| n] |]; intros [= <-]; split; [reflexivity | lia]. Qed.

Lemma truthyId_fresh (n : nat) : 1 <= n -> truthyId (Some n) = Some n.
Proof. destruct n; [lia | reflexivity]. Qed.

Lemma refDemoInv_init (b : Browser) :
  1 <= nextTimer b ->
  (forall i, is_Some (timers b !! i) -> i < nextTimer b) ->
  pending UseRefDemo b = ∅ ->
  refDemoInv RefDemo.init b.
Proof.
  intros Hpos Hlt Hnone. split_inv; [exact Hpos | exact Hlt | | ].
  - intros i k cb Hi Hown. exfalso.
    assert (Hp : pending UseRefDemo b !! i = Some (k, cb)).
    { apply map_lookup_filter_Some. split; [exact Hi | exact Hown]. }
    rewrite Hnone, lookup_empty in Hp. discriminate.
  - reflexivity.
Qed.

Lemma refDemoInv_startTimer (s : RefDemo.State) (b : Browser) :
  refDemoInv s b ->
  refDemoInv (RefDemo.startTimer s b).1 (RefDemo.startTimer s b).2.
Proof.
  intros Hinv. unfold RefDemo.startTimer.
  destruct (RefDemo.isRunning s) eqn:Hrun; cbn; [exact Hinv |].
  destruct Hinv as (Hpos & Hlt & Hheld & Hidle).
  split_inv; cbn.
  - lia.
  - intros i Hi. apply lookup_insert_is_Some in Hi as [<- | [_ Hi]]; [lia |].
    specialize (Hlt i Hi). lia.
  - intros i k cb Hi Hown.
    apply lookup_insert_Some in Hi as [[<- _] | [Hne Hi]].
    + left. apply truthyId_fresh. exact Hpos.
    + destruct (Hheld i k cb Hi Hown) as [Ht | Ha]; [| right; exact Ha].
      rewrite (Hidle Hrun) in Ht. discriminate.
  - discriminate.
Qed.

Lemma refDemoInv_stopTimer (s : RefDemo.State) (b : Browser) :
  refDemoInv s b ->
  refDemoInv (RefDemo.stopTimer s b).1 (RefDemo.stopTimer s b).2.
Proof.
  intros Hinv. unfold RefDemo.stopTimer.
  destruct (truthyId (RefDemo.timerRef s)) as [j |] eqn:Hj; cbn;
    [| exact Hinv].
  destruct Hinv as (Hpos & Hlt & Hheld & Hidle).
  split_inv; cbn.
  - exact Hpos.
  - intros i [x Hi]. apply lookup_delete_Some in Hi as [_ Hi]. apply Hlt. eauto.
  - intros i k cb Hi Hown. apply lookup_delete_Some in Hi as [Hne Hi].
    destruct (Hheld i k cb Hi Hown) as [Ht | Ha]; [| right; exact Ha].
    congruence.
  - reflexivity.
Qed.

Lemma refDemoInv_resetTimer (s : RefDemo.State) (b : Browser) :
  refDemoInv s b ->
  refDemoInv (RefDemo.resetTimer s b).1 (RefDemo.resetTimer s b).2.
Proof.
  intros Hinv. apply refDemoInv_stopTimer in Hinv. unfold RefDemo.resetTimer.
  destruct (RefDemo.stopTimer s b) as [s' b']. exact Hinv.
Qed.

Lemma refDemoInv_handleAutoSaveChange (value : string) (s : RefDemo.State)
    (b : Browser) :
  refDemoInv s b ->
  refDemoInv (RefDemo.handleAutoSaveChange value s b).1
             (RefDemo.handleAutoSaveChange value s b).2.
Proof.
  intros (Hpos & Hlt & Hheld & Hidle).
  unfold RefDemo.handleAutoSaveChange, clearIfSet.
  destruct (truthyId (RefDemo.autoSaveTimeoutRef s)) as [j |] eqn:Hj; cbn.
  - split_inv; cbn.
    + lia.
    + intros i Hi. apply lookup_insert_is_Some in Hi as [<- | [_ [x Hi]]]; [lia |].
      apply lookup_delete_Some in Hi as [_ Hi].
      assert (i < nextTimer b) by (apply Hlt; eauto). lia.
    + intros i k cb Hi Hown.
      apply lookup_insert_Some in Hi as [[<- _] | [Hne Hi]].
      * right. apply truthyId_fresh. exact Hpos.
      * apply lookup_delete_Some in Hi as [Hji Hi].
        destruct (Hheld i k cb Hi Hown) as [Ht | Ha]; [left; exact Ht |].
        congruence.
    + exact Hidle.
  - split_inv; cbn.
    + lia.
    + intros i Hi. apply lookup_insert_is_Some in Hi as [<- | [_ Hi]]; [lia |].
      specialize (Hlt i Hi). lia.
    + intros i k cb Hi Hown.
      apply lookup_insert_Some in Hi as [[<- _] | [Hne Hi]].
      * right. apply truthyId_fresh. exact Hpos.
      * destruct (Hheld i k cb Hi Hown) as [Ht | Ha]; [left; exact Ht |].
        congruence.
    + exact Hidle.
Qed.

Lemma refDemoInv_fire (i now : nat) (s : RefDemo.State) (b : Browser) :
  refDemoInv s b ->
  refDemoInv (RefDemo.handle (RefDemo.Fired i now) s b).1
             (RefDemo.handle (RefDemo.Fired i now) s b).2.
Proof.
  intros (Hpos & Hlt & Hheld & Hidle). cbn [RefDemo.handle]. unfold fire.
  assert (Hrun : forall cb,
             RefDemo.timerRef (RefDemo.run cb now s) = RefDemo.timerRef s /\
             RefDemo.autoSaveTimeoutRef (RefDemo.run cb now s)
             = RefDemo.autoSaveTimeoutRef s /\
             RefDemo.isRunning (RefDemo.run cb now s) = RefDemo.isRunning s).
  { intros [[] | v]; repeat split. }
  destruct (timers b !! i) as [[[|] cb] |] eqn:Hi; cbn;
    try destruct (Hrun cb) as (Ht & Ha & Hr).
  - split_inv; [exact Hpos | exact Hlt | | ].
    + rewrite Ht, Ha. exact Hheld.
    + rewrite Ht, Hr. exact Hidle.
  - split_inv; cbn.
    + exact Hpos.
    + intros j [x Hx]. apply lookup_delete_Some in Hx as [_ Hx]. apply Hlt. eauto.
    + rewrite Ht, Ha. intros j k cb' Hx Hown.
      apply lookup_delete_Some in Hx as [_ Hx]. eapply Hheld; eassumption.
    + rewrite Ht, Hr. exact Hidle.
  - split_inv; assumption.
Qed.

Lemma refDemoInv_handle (ev : RefDemo.Event) (s : RefDemo.State) (b : Browser) :
  refDemoInv s b ->
  refDemoInv (RefDemo.handle ev s b).1 (RefDemo.handle ev s b).2.
Proof.
  destruct ev as [| | | value | i now].
  - apply refDemoInv_startTimer.
  - apply refDemoInv_stopTimer.
  - apply refDemoInv_resetTimer.
  - apply refDemoInv_handleAutoSaveChange.
  - apply refDemoInv_fire.
Qed.

Lemma refDemoInv_handleAll (evs : list RefDemo.Event) (s : RefDemo.State)
    (b : Browser) :
  refDemoInv s b ->
  refDemoInv (RefDemo.handleAll evs s b).1 (RefDemo.handleAll evs s b).2.
Proof.
  revert s b. induction evs as [| ev evs IH]; intros s b Hinv; [exact Hinv |].
  cbn [RefDemo.handleAll]. pose proof (refDemoInv_handle ev s b Hinv) as Hstep.
  destruct (RefDemo.handle ev s b) as [s' b']. apply IH. exact Hstep.
Qed.

Lemma refDemo_unmount_clears (s : RefDemo.State) (b : Browser) :
  refDemoInv s b -> pending UseRefDemo (RefDemo.unmount s b) = ∅.
Proof.
  intros (_ & _ & Hheld & _). apply map_empty. intros i.
  destruct (pending UseRefDemo (RefDemo.unmount s b) !! i) as [[k cb] |] eqn:Hi;
    [exfalso | reflexivity].
  apply map_lookup_filter_Some in Hi as [Hi Hown]. cbn in Hown.
  assert (Hb : timers b !! i = Some (k, cb)
               /\ truthyId (RefDemo.timerRef s) <> Some i
               /\ truthyId (RefDemo.autoSaveTimeoutRef s) <> Some i).
  { unfold RefDemo.unmount, clearIfSet in Hi.
    destruct (truthyId (RefDemo.timerRef s)) as [t |],
             (truthyId (RefDemo.autoSaveTimeoutRef s)) as [a |];
      cbn in Hi;
      repeat (apply lookup_delete_Some in Hi as [? Hi]);
      repeat split; congruence. }
  destruct Hb as (Hb & Hnt & Hna).
  destruct (Hheld i k cb Hb Hown); contradiction.
Qed.

(** The sibling of the defect above: whatever the user did in the useRef
    panel, once it is unmounted none of the timers it started is left in
    the timer table. *)
Lemma UseRefDemo_unmount_releases (evs : list RefDemo.Event) (b : Browser) :
  1 <= nextTimer b ->
  (forall i, is_Some (timers b !! i) -> i < nextTimer b) ->
  pending UseRefDemo b = ∅ ->
  pending UseRefDemo
    (RefDemo.unmount (RefDemo.handleAll evs RefDemo.init b).1
                     (RefDemo.handleAll evs RefDemo.init b).2) = ∅.
Proof.
  intros Hpos Hlt Hnone. apply refDemo_unmount_clears, refDemoInv_handleAll.
  apply refDemoInv_init; assumption.
Qed.

(** The same user actions in the useRef panel leave nothing behind. *)
Example UseRefDemo_started_then_swapped cn :
  timers (browser (selectTopic cn "useState"
                     (refDemoEvent (RefDemo.ChangeAutoSave "draft")
                        (refDemoEvent RefDemo.ClickStart
                           (selectTopic cn "useRef" firstPage))))) = ∅.
Proof. rewrite !selectTopic_commit by decide_by_compute. reflexivity. Qed.

(** * Further properties of the sources *)

(** ** [todoReducer] and [filteredTodos] *)

Module TodoFacts.
Import TodoList.

Lemma eta_state (s : TodoState) : mkTodoState (todos s) (filter s) (editingId s) = s.
Proof. destruct s; reflexivity. Qed.

(** Toggling the same id twice gives back the state: every todo with that
    id is flipped twice, the others are never touched. *)
Theorem toggle_twice (now now' : string) (s : TodoState) (i : string) :
  todoReducer now' (todoReducer now s (TOGGLE_TODO i)) (TOGGLE_TODO i) = s.
Proof.
  destruct s as [l f e]. cbn. f_equal. rewrite List.map_map.
  rewrite <- (List.map_id l) at 2. apply List.map_ext. intros [j t c p]. cbn.
  destruct (String.eqb j i) eqn:Hj; cbn; [| rewrite Hj; reflexivity].
  rewrite Hj, negb_involutive. reflexivity.
Qed.

(** [DELETE_TODO] removes every todo with the id and nothing else: the
    todos left are those with another id, in their old order, and the
    filter and the edit marker stay.  Deleting an id no todo has changes
    nothing. *)
Theorem delete_removes_id (now : string) (s : TodoState) (i : string) :
  let s' := todoReducer now s (DELETE_TODO i) in
  (forall todo, In todo (todos s') <-> In todo (todos s) /\ id todo <> i) /\
  sublist (todos s') (todos s) /\
  filter s' = filter s /\ editingId s' = editingId s /\
  (Forall (fun todo => id todo <> i) (todos s) -> s' = s).
Proof.
  destruct s as [l f e]. cbn.
  split; [| split; [| split; [reflexivity | split; [reflexivity |]]]].
  - intros todo. rewrite List.filter_In, negb_true_iff, String.eqb_neq. tauto.
  - induction l as [| todo l IH]; cbn; [constructor |].
    destruct (negb (String.eqb (id todo) i)); [apply sublist_skip | apply sublist_cons];
      exact IH.
  - intros Hall. f_equal.
    induction Hall as [| todo l Hne _ IH]; cbn; [reflexivity |].
    apply String.eqb_neq in Hne. rewrite Hne. cbn. f_equal. exact IH.
Qed.
(** [CLEAR_COMPLETED] keeps exactly what the active view shows: the
    todos left are the uncompleted ones in their old order, the completed
    view is empty afterwards, and clearing again changes nothing. *)
Theorem clear_completed_keeps_active (now now' : string) (s : TodoState) :
  let s' := todoReducer now s CLEAR_COMPLETED in
  todos s' = filteredTodos (todoReducer now s (SET_FILTER "active")) /\
  Forall (fun todo => completed todo = false) (todos s') /\
  filteredTodos (todoReducer now' s' (SET_FILTER "completed")) = [] /\
  todoReducer now' s' CLEAR_COMPLETED = s'.
Proof.
  destruct s as [l f e]. cbn. unfold filteredTodos. cbn.
  split; [reflexivity |]. split; [| split].
  - apply Forall_forall. intros todo Hin. apply list_elem_of_In in Hin.
    apply List.filter_In in Hin as [_ Hc]. apply negb_true_iff. exact Hc.
  - induction l as [| [j t [|] p] l IH]; cbn; [reflexivity | exact IH | exact IH].
  - f_equal. induction l as [| [j t [|] p] l IH]; cbn; [reflexivity | exact IH |].
    f_equal. exact IH.
Qed.

(** Only [ADD_TODO], [DELETE_TODO] and [CLEAR_COMPLETED] add or remove
    todos: under every other action the todos keep their ids and their
    order. *)
Theorem edits_keep_ids (now : string) (s : TodoState) (action : TodoAction) :
  editsInPlace action = true ->
  List.map id (todos (todoReducer now s action)) = List.map id (todos s).
Proof.
  destruct action; cbn; try discriminate; intros _; try reflexivity;
    rewrite List.map_map; apply List.map_ext; intros todo;
    destruct (String.eqb (id todo) _); reflexivity.
Qed.

(** The views: the active and the completed view split the todos between
    them, and any other filter shows them all. *)
Theorem views_partition (s : TodoState) (other : string) :
  other <> "active" -> other <> "completed" ->
  filteredTodos (mkTodoState (todos s) "active" (editingId s)) ++
  filteredTodos (mkTodoState (todos s) "completed" (editingId s))
    ≡ₚ todos s /\
  filteredTodos (mkTodoState (todos s) other (editingId s)) = todos s.
Proof.
  intros Ha Hc. unfold filteredTodos. cbn. split.
  - induction (todos s) as [| [j t [|] p] l IH]; cbn; [reflexivity | |].
    + rewrite <- IH at 3. symmetry. apply Permutation_middle.
    + rewrite IH. reflexivity.
  - apply String.eqb_neq in Ha, Hc. rewrite Ha, Hc.
    induction (todos s) as [| todo l IH]; cbn; [reflexivity |]. f_equal. exact IH.
Qed.

End TodoFacts.

Lemma delete_removes_id_witness :
  TodoList.todoReducer "1700000000000" TodoList.initialTodoState
                       (TodoList.DELETE_TODO "3")
  = TodoList.initialTodoState.
Proof.
  apply (TodoFacts.delete_removes_id "1700000000000" TodoList.initialTodoState "3").
  repeat constructor; discriminate.
Defined.

Lemma edits_keep_ids_witness :
  List.map TodoList.id
    (TodoList.todos (TodoList.todoReducer "1700000000000" TodoList.initialTodoState
                       (TodoList.UPDATE_TODO "2" "Ship todo app")))
  = ["1"; "2"].
Proof.
  exact (TodoFacts.edits_keep_ids "1700000000000" TodoList.initialTodoState
           (TodoList.UPDATE_TODO "2" "Ship todo app") eq_refl).
Defined.

Lemma views_partition_witness :
  TodoList.filteredTodos
    (TodoList.mkTodoState (TodoList.todos TodoList.initialTodoState) "all" None)
  = TodoList.todos TodoList.initialTodoState.
Proof.
  assert (Ha : "all" <> "active") by discriminate.
  assert (Hc : "all" <> "completed") by discriminate.
  exact (proj2 (TodoFacts.views_partition TodoList.initialTodoState "all" Ha Hc)).
Defined.

(** ** [cartReducer] and [useShoppingCart] *)

Module CartFacts.
Import Cart.

Section WithNumbers.
Context `{JSNumber}.

Lemma find_none_ids (i : string) (l : list CartItem) :
  List.find (fun item => String.eqb (id item) i) l = None ->
  ~ In i (List.map id l).
Proof.
  induction l as [| item l IH]; cbn; [tauto |].
  destruct (String.eqb (id item) i) eqn:Hi; [discriminate |].
  apply String.eqb_neq in Hi. intros Hn [Heq | Hin]; [contradiction |].
  exact (IH Hn Hin).
Qed.

Lemma find_some_ids (i : string) (l : list CartItem) (item : CartItem) :
  List.find (fun item => String.eqb (id item) i) l = Some item ->
  In i (List.map id l).
Proof.
  intros Hf. apply List.find_some in Hf as [Hin Heq].
  apply String.eqb_eq in Heq. subst i. apply in_map. exact Hin.
Qed.

Lemma map_keeps_ids (f : CartItem -> num) (i : string) (l : list CartItem) :
  List.map id
    (List.map (fun item =>
                 if String.eqb (id item) i
                 then mkCartItem (id item) (name item) (price item) (f item)
                 else item) l)
  = List.map id l.
Proof.
  rewrite List.map_map. apply List.map_ext. intros item.
  destruct (String.eqb (id item) i); reflexivity.
Qed.

Lemma filter_ids (i : string) (l : list CartItem) :
  List.map id (List.filter (fun item => negb (String.eqb (id item) i)) l)
  = List.filter (fun j => negb (String.eqb j i)) (List.map id l).
Proof.
  induction l as [| item l IH]; cbn; [reflexivity |].
  destruct (negb (String.eqb (id item) i)); cbn; rewrite IH; reflexivity.
Qed.

Lemma NoDup_filter_ids (i : string) (ids : list string) :
  NoDup ids -> NoDup (List.filter (fun j => negb (String.eqb j i)) ids).
Proof. rewrite !NoDup_ListNoDup. apply List.NoDup_filter. Qed.

(** What each action does to the ids of the cart, in order. *)
Lemma cartReducer_ids (state : CartState) (action : CartAction) :
  List.map id (items (cartReducer state action))
  = match action with
    | ADD_ITEM i _ _ =>
        if bool_decide (i ∈ List.map id (items state))
        then List.map id (items state)
        else List.map id (items state) ++ [i]
    | REMOVE_ITEM i =>
        List.filter (fun j => negb (String.eqb j i)) (List.map id (items state))
    | UPDATE_QUANTITY i q =>
        if num_le q num_0
        then List.filter (fun j => negb (String.eqb j i)) (List.map id (items state))
        else List.map id (items state)
    | CLEAR_CART => []
    | _ => List.map id (items state)
    end.
Proof.
  destruct action as [i n p | i | i q | d | sh | |]; cbn; try reflexivity.
  - destruct (List.find _ (items state)) as [existing |] eqn:Hf; cbn.
    + rewrite bool_decide_eq_true_2
        by (apply list_elem_of_In; eapply find_some_ids; exact Hf).
      apply (map_keeps_ids (fun item => num_add (quantity item) num_1)).
    + rewrite bool_decide_eq_false_2
        by (rewrite list_elem_of_In; apply find_none_ids; exact Hf).
      rewrite List.map_app. reflexivity.
  - apply filter_ids.
  - destruct (num_le q num_0); cbn; [apply filter_ids |].
    apply (map_keeps_ids (fun _ => q)).
Qed.

(** No action gives two items of the cart the same id. *)
Lemma cartReducer_NoDup (state : CartState) (action : CartAction) :
  NoDup (List.map id (items state)) ->
  NoDup (List.map id (items (cartReducer state action))).
Proof.
  intros Hnd. rewrite cartReducer_ids.
  destruct action as [i n p | i | i q | d | sh | |]; try exact Hnd.
  - case_bool_decide as Hin; [exact Hnd |].
    apply NoDup_app. split; [exact Hnd |]. split; [| apply NoDup_singleton].
    intros j Hj Hj'. apply list_elem_of_singleton in Hj'. subst j. contradiction.
  - apply NoDup_filter_ids. exact Hnd.
  - destruct (num_le q num_0); [apply NoDup_filter_ids |]; exact Hnd.
  - constructor.
Qed.

(** Whatever is dispatched from the empty cart, the items of the cart
    have pairwise distinct ids: [ADD_ITEM] of an id the cart has raises
    that item's quantity instead of adding a second line. *)
Theorem cart_ids_distinct (actions : list CartAction) :
  NoDup (List.map id (items (dispatchAll initialCartState actions))).
Proof.
  assert (Hgen : forall state,
             NoDup (List.map id (items state)) ->
             NoDup (List.map id (items (dispatchAll state actions)))).
  { induction actions as [| action rest IH]; intros state Hnd; [exact Hnd |].
    cbn. apply IH, cartReducer_NoDup. exact Hnd. }
  apply Hgen. constructor.
Qed.

(** [ADD_ITEM] of an id the cart has touches that line only: it adds one
    to its quantity and leaves name and price as they were, whatever name
    and price the action carries; the other lines and the order stay. *)
Theorem add_existing_item (state : CartState) (i n : string) (p : num)
    (before after : list CartItem) (existing : CartItem) :
  items state = before ++ existing :: after ->
  id existing = i ->
  ~ In i (List.map id before) -> ~ In i (List.map id after) ->
  items (cartReducer state (ADD_ITEM i n p))
  = before
    ++ mkCartItem i (name existing) (price existing)
                  (num_add (quantity existing) num_1)
    :: after.
Proof.
  intros Hitems Hid Hb Ha.
  assert (Hskip : forall l, ~ In i (List.map id l) ->
             List.map (fun item =>
                         if String.eqb (id item) i
                         then mkCartItem (id item) (name item) (price item)
                                         (num_add (quantity item) num_1)
                         else item) l = l).
  { induction l as [| item l IH]; cbn; [reflexivity |]. intros Hn.
    destruct (String.eqb (id item) i) eqn:Hi.
    - apply String.eqb_eq in Hi. tauto.
    - f_equal. apply IH. tauto. }
  cbn. destruct (List.find _ (items state)) as [found |] eqn:Hf.
  - cbn. rewrite Hitems, List.map_app. cbn.
    rewrite (Hskip before Hb), (Hskip after Ha), Hid, String.eqb_refl. reflexivity.
  - exfalso. apply find_none_ids in Hf. apply Hf. rewrite Hitems, List.map_app.
    apply in_or_app. right. left. exact Hid.
Qed.

(** [UPDATE_QUANTITY] with a quantity that is zero or less is
    [REMOVE_ITEM]: the line goes, and no line with that id is left. *)
Theorem update_to_zero_removes (state : CartState) (i : string) (q : num) :
  num_le q num_0 = true ->
  cartReducer state (UPDATE_QUANTITY i q) = cartReducer state (REMOVE_ITEM i) /\
  ~ In i (List.map id (items (cartReducer state (UPDATE_QUANTITY i q)))).
Proof.
  intros Hq. cbn. rewrite Hq. split; [reflexivity |]. cbn.
  rewrite filter_ids. intros Hin. apply List.filter_In in Hin as [_ Hne].
  rewrite String.eqb_refl in Hne. discriminate.
Qed.

(** The tax is recomputed by [CALCULATE_TAX] and by nothing else: no
    other action changes it, not even [CLEAR_CART], which zeroes discount
    and shipping.  So after [CALCULATE_TAX] the cart carries the tax of
    the items it had then, whatever is added, removed or cleared since. *)
Theorem tax_goes_stale (state : CartState) (actions : list CartAction) :
  Forall (fun action => isCalculateTax action = false) actions ->
  tax (dispatchAll (cartReducer state CALCULATE_TAX) actions)
  = num_mul (subtotalOf (items state)) num_0_08 /\
  tax (dispatchAll state actions) = tax state.
Proof.
  intros Hall.
  assert (Hkeep : forall s, tax (dispatchAll s actions) = tax s).
  { induction Hall as [| action rest Ha _ IH]; intros s; [reflexivity |].
    cbn [dispatchAll]. rewrite IH.
    destruct action; try discriminate; cbn; try reflexivity.
    - destruct (List.find _ (items s)); reflexivity.
    - destruct (num_le _ _); reflexivity. }
  split; [rewrite Hkeep; reflexivity | apply Hkeep].
Qed.

(** [useShoppingCart] keeps the same discipline with its own updaters:
    from distinct ids, [addItem], [removeItem] and [clear] give distinct
    ids, and [addItem] and [removeItem] compute the items [cartReducer]
    computes for [ADD_ITEM] and [REMOVE_ITEM]. *)
Theorem useShoppingCart_agrees (state : CartState) (i n : string) (p : num) :
  NoDup (List.map id (items state)) ->
  addItem i n p (items state) = items (cartReducer state (ADD_ITEM i n p)) /\
  removeItem i (items state) = items (cartReducer state (REMOVE_ITEM i)) /\
  NoDup (List.map id (addItem i n p (items state))) /\
  NoDup (List.map id (removeItem i (items state))) /\
  NoDup (List.map id (clear (items state))).
Proof.
  intros Hnd.
  assert (Ha : addItem i n p (items state) = items (cartReducer state (ADD_ITEM i n p))).
  { unfold addItem. cbn. destruct (List.find _ (items state)); reflexivity. }
  split; [exact Ha |]. split; [reflexivity |]. split; [| split].
  - rewrite Ha. apply cartReducer_NoDup. exact Hnd.
  - apply (cartReducer_NoDup state (REMOVE_ITEM i) Hnd).
  - constructor.
Qed.
End WithNumbers.
End CartFacts.

Lemma add_existing_item_witness :
  Cart.items (Cart.cartReducer (cartOf [reactBook; typeScriptGuide])
                (Cart.ADD_ITEM (H:=RationalNumbers) "2" "TypeScript Guide"
                   (QArith_base.Qmake 3999 100)))
  = [reactBook]
    ++ Cart.mkCartItem (H:=RationalNumbers) "2" "TypeScript Guide"
         (QArith_base.Qmake 3999 100) (QArith_base.Qmake 2 1)
    :: [].
Proof.
  apply (CartFacts.add_existing_item (H:=RationalNumbers)
           (cartOf [reactBook; typeScriptGuide])
           "2" "TypeScript Guide" (QArith_base.Qmake 3999 100)
           [reactBook] [] typeScriptGuide);
    [reflexivity | reflexivity | | ]; cbn; intuition discriminate.
Defined.

Lemma update_to_zero_removes_witness :
  Cart.cartReducer (cartOf [reactBook])
    (Cart.UPDATE_QUANTITY (H:=RationalNumbers) "1" (QArith_base.Qmake 0 1))
  = cartOf [].
Proof.
  exact (proj1 (CartFacts.update_to_zero_removes (H:=RationalNumbers)
                  (cartOf [reactBook]) "1" (QArith_base.Qmake 0 1) eq_refl)).
Defined.

Lemma tax_goes_stale_witness :
  Cart.tax (Cart.dispatchAll
              (Cart.cartReducer (cartOf [reactBook]) Cart.CALCULATE_TAX)
              [Cart.CLEAR_CART])
  = QArith_base.Qmult
      (QArith_base.Qplus (QArith_base.Qmake 0 1)
         (QArith_base.Qmult (QArith_base.Qmake 2999 100) (QArith_base.Qmake 1 1)))
      (QArith_base.Qmake 2 25).
Proof.
  assert (Hall : Forall (fun action => Cart.isCalculateTax (H:=RationalNumbers) action
                                       = false)
                        [Cart.CLEAR_CART]) by (repeat constructor).
  exact (proj1 (CartFacts.tax_goes_stale (H:=RationalNumbers)
                  (cartOf [reactBook]) [Cart.CLEAR_CART] Hall)).
Defined.

Lemma useShoppingCart_agrees_witness :
  NoDup (List.map Cart.id
           (Cart.addItem (H:=RationalNumbers) "1" "React Book"
              (QArith_base.Qmake 2999 100) [reactBook])).
Proof.
  assert (Hnd : NoDup (List.map Cart.id (Cart.items (cartOf [reactBook]))))
    by (cbn; apply NoDup_singleton).
  exact (proj1 (proj2 (proj2 (CartFacts.useShoppingCart_agrees (H:=RationalNumbers)
                                (cartOf [reactBook]) "1" "React Book"
                                (QArith_base.Qmake 2999 100) Hnd)))).
Defined.

(** ** [formReducer] and [handleFormSubmit] *)

Module FormFacts.
Import Form.

Section WithRegExp.
Variable email_test : string -> bool.

(** What a value must be for [VALIDATE_FORM] to raise no error on it. *)
Lemma validationErrors_empty (v : gmap string string) :
  validationErrors email_test v = ∅ <->
  truthy (v !! "name") = true /\ truthy (v !! "email") = true /\
  email_test (default EmptyString (v !! "email")) = true /\
  truthy (v !! "phone") = true.
Proof.
  unfold validationErrors.
  destruct (truthy (v !! "name")), (truthy (v !! "email")),
           (email_test (default EmptyString (v !! "email"))),
           (truthy (v !! "phone")); cbn;
    (split; [intros He; try (exfalso; revert He; apply insert_non_empty); tauto
            | intros (? & ? & ? & ?); try discriminate; reflexivity]).
Qed.

Lemma validationErrors_keys (v : gmap string string) (k : string) :
  k <> "name" -> k <> "email" -> k <> "phone" ->
  validationErrors email_test v !! k = None.
Proof.
  intros Hn He Hp. unfold validationErrors.
  destruct (truthy (v !! "name")), (truthy (v !! "email")),
           (email_test (default EmptyString (v !! "email"))),
           (truthy (v !! "phone")); cbn;
    repeat (rewrite lookup_insert_ne by congruence); apply lookup_empty.
Qed.

(** [VALIDATE_FORM] marks the form valid exactly when name, email and
    phone are filled in and the email passes the pattern, which is
    exactly when it leaves no error.  It replaces the errors wholesale:
    an error recorded for any other field is gone afterwards.  The values
    are not touched. *)
Theorem validate_form_valid_iff (s : FormState) (k : string) :
  k <> "name" -> k <> "email" -> k <> "phone" ->
  let s' := formReducer email_test s VALIDATE_FORM in
  (isValid s' = true <->
     truthy (values s !! "name") = true /\ truthy (values s !! "email") = true /\
     email_test (default EmptyString (values s !! "email")) = true /\
     truthy (values s !! "phone") = true) /\
  (isValid s' = true <-> errors s' = ∅) /\
  errors s' !! k = None /\
  values s' = values s.
Proof.
  intros Hn He Hp. cbn.
  assert (Hv : bool_decide (size (validationErrors email_test (values s)) = 0) = true
               <-> validationErrors email_test (values s) = ∅).
  { rewrite bool_decide_eq_true. apply map_size_empty_iff. }
  split; [rewrite Hv; apply validationErrors_empty |].
  split; [exact Hv |].
  split; [apply validationErrors_keys; assumption | reflexivity].
Qed.

(** [handleFormSubmit] decides on the [isValid] of the render it belongs
    to, not on the validation it dispatches.  On a form not yet marked
    valid it only validates: nothing is submitted and the values stay,
    however valid they are; the submit that follows, from the render that
    sees [isValid], submits and ends with the empty form. *)
Theorem submit_needs_two_clicks (formState : FormState) :
  isValid formState = false ->
  validationErrors email_test (values formState) = ∅ ->
  let first := handleFormSubmit formState in
  let s1 := dispatchAll email_test formState (fst first) in
  let second := handleFormSubmit s1 in
  snd first = [] /\
  values s1 = values formState /\ isSubmitting s1 = isSubmitting formState /\
  isValid s1 = true /\
  isSubmitting (dispatchAll email_test s1 (fst second)) = true /\
  dispatchAll email_test (dispatchAll email_test s1 (fst second)) (snd second)
  = initialFormState.
Proof.
  intros Hinv Hok. unfold handleFormSubmit. rewrite Hinv. cbn. rewrite Hok. cbn.
  repeat split.
Qed.

(** Editing never revalidates: no action but [VALIDATE_FORM] and
    [RESET_FORM] changes [isValid], so a form marked valid stays so while
    its fields are changed, and its next submit goes through and resets
    it whatever the fields hold by then. *)
Theorem edits_keep_isValid (s : FormState) (edits : list FormAction) :
  Forall (fun action => isEdit action = true) edits ->
  let s' := dispatchAll email_test s edits in
  isValid s' = isValid s /\
  handleFormSubmit s' = handleFormSubmit s /\
  (isValid s = true ->
   dispatchAll email_test (dispatchAll email_test s' (fst (handleFormSubmit s')))
               (snd (handleFormSubmit s'))
   = initialFormState).
Proof.
  intros Hedits. cbn.
  assert (Hv : isValid (dispatchAll email_test s edits) = isValid s).
  { revert s. induction Hedits as [| action rest Ha _ IH]; intros s; [reflexivity |].
    cbn. rewrite IH. destruct action; try discriminate; reflexivity. }
  split; [exact Hv |]. unfold handleFormSubmit. rewrite Hv.
  split; [reflexivity |]. intros Hs. rewrite Hs. reflexivity.
Qed.
End WithRegExp.
End FormFacts.

Example email_test_ascii_examples :
  Form.email_test_ascii "ann@example.com" = true /\
  Form.email_test_ascii "write to ann@example.com today" = true /\
  Form.email_test_ascii "ann@example" = false /\
  Form.email_test_ascii "@example.com" = false /\
  Form.email_test_ascii "ann@.com" = false /\
  Form.email_test_ascii "ann@example. com" = false /\
  Form.email_test_ascii "ann @example.com" = false.
Proof. repeat split. Qed.

Lemma validate_form_valid_iff_witness :
  Form.errors
    (Form.formReducer Form.email_test_ascii
       (Form.mkFormState
          {[ "name" := "Ann"; "email" := "ann@example.com"; "phone" := "555" ]}
          {[ "zip" := "Zip is required" ]} ∅ false false)
       Form.VALIDATE_FORM) !! "zip" = None.
Proof.
  assert (Hn : "zip" <> "name") by discriminate.
  assert (He : "zip" <> "email") by discriminate.
  assert (Hp : "zip" <> "phone") by discriminate.
  exact (proj1 (proj2 (proj2
           (FormFacts.validate_form_valid_iff Form.email_test_ascii
              (Form.mkFormState
                 {[ "name" := "Ann"; "email" := "ann@example.com"; "phone" := "555" ]}
                 {[ "zip" := "Zip is required" ]} ∅ false false)
              "zip" Hn He Hp)))).
Defined.

Lemma submit_needs_two_clicks_witness :
  Form.isValid
    (Form.dispatchAll Form.email_test_ascii
       (Form.mkFormState
          {[ "name" := "Ann"; "email" := "ann@example.com"; "phone" := "555" ]}
          ∅ ∅ false false)
       (fst (Form.handleFormSubmit
               (Form.mkFormState
                  {[ "name" := "Ann"; "email" := "ann@example.com"; "phone" := "555" ]}
                  ∅ ∅ false false))))
  = true.
Proof.
  exact (proj1 (proj2 (proj2 (proj2
           (FormFacts.submit_needs_two_clicks Form.email_test_ascii
              (Form.mkFormState
                 {[ "name" := "Ann"; "email" := "ann@example.com"; "phone" := "555" ]}
                 ∅ ∅ false false)
              eq_refl eq_refl))))).
Defined.

Lemma edits_keep_isValid_witness :
  Form.handleFormSubmit
    (Form.dispatchAll Form.email_test_ascii
       (Form.mkFormState {[ "name" := "Ann" ]} ∅ ∅ false true)
       [Form.SET_FIELD "name" EmptyString; Form.CLEAR_ERROR "name"])
  = Form.handleFormSubmit (Form.mkFormState {[ "name" := "Ann" ]} ∅ ∅ false true).
Proof.
  assert (Hedits : Forall (fun action => Form.isEdit action = true)
                          [Form.SET_FIELD "name" EmptyString; Form.CLEAR_ERROR "name"])
    by (repeat constructor).
  exact (proj1 (proj2
           (FormFacts.edits_keep_isValid Form.email_test_ascii
              (Form.mkFormState {[ "name" := "Ann" ]} ∅ ∅ false true) _ Hedits))).
Defined.

(** ** [useLocalStorage]: writing and reading back *)

Section UseLocalStorageRoundTrip.
Variable JSValue : Type.
Variable JSON_parse : string -> option JSValue.
Variable JSON_stringify : JSValue -> Completion string.
Variable setItem_throws : gmap string string -> string -> string -> option Error.

Hypothesis JSON_parse_empty : JSON_parse EmptyString = None.

(** A value written by [setValue] is the value the hook reads at its next
    mount: when [JSON.stringify] gives a text that [JSON.parse] reads back
    as the value and the browser takes the write, [setValue] completes
    normally and silently, the stored value of the next render is the
    value, the key holds the text, the other keys hold what they held, and
    [useLocalStorage] mounted again on that window starts from the value
    whatever default it is given. *)
Theorem setValue_then_mount (key : string) (storedValue : JSValue)
    (store : gmap string string) (value : SetStateAction JSValue)
    (text : string) (initialValue : JSValue) (console : list string) :
  JSON_stringify (valueToStoreOf storedValue value) = Normal text ->
  JSON_parse text = Some (valueToStoreOf storedValue value) ->
  setItem_throws store key text = None ->
  exists window',
    setValue JSValue JSON_stringify setItem_throws key storedValue
             (mkWindow (Some store)) value console
    = (Normal (valueToStoreOf storedValue value, window'), console) /\
    localStorage window' = Some (<[key := text]> store) /\
    (forall k, k <> key ->
               <[key := text]> store !! k = store !! k) /\
    useLocalStorage_init JSValue JSON_parse window' key initialValue console
    = (Normal (valueToStoreOf storedValue value), console).
Proof.
  intros Hs Hp Hw. exists (mkWindow (Some (<[key := text]> store))).
  assert (Htext : truthy (Some text) = true).
  { destruct text; [| reflexivity]. rewrite JSON_parse_empty in Hp. discriminate. }
  split; [| split; [reflexivity | split]].
  - unfold setValue, try_catch, bind, JSON_stringify_js, setItem.
    destruct value; cbn in *; rewrite Hs; cbn; rewrite Hw; reflexivity.
  - intros k Hk. apply lookup_insert_ne. congruence.
  - unfold useLocalStorage_init, try_catch, bind, getItem, JSON_parse_js. cbn.
    rewrite lookup_insert_eq. unfold ret at 1. rewrite Htext.
    change (default EmptyString (Some text)) with text. rewrite Hp. reflexivity.
Qed.

(** When the write fails, because [JSON.stringify] throws, the browser
    refuses the write or the storage is denied, [setValue] still
    completes normally: it logs one error, the stored value of the next
    render is the new value all the same, and the window is untouched, so
    the component and the storage disagree until the next successful
    write. *)
Theorem setValue_failed_write (key : string) (storedValue : JSValue)
    (window : Window) (value : SetStateAction JSValue) (console : list string) :
  (exists e, JSON_stringify (valueToStoreOf storedValue value) = Throw e) \/
  localStorage window = None \/
  (exists store text e,
      localStorage window = Some store /\
      JSON_stringify (valueToStoreOf storedValue value) = Normal text /\
      setItem_throws store key text = Some e) ->
  exists message,
    setValue JSValue JSON_stringify setItem_throws key storedValue window value
             console
    = (Normal (valueToStoreOf storedValue value, window), console ++ [message]).
Proof.
  unfold setValue, try_catch, bind, JSON_stringify_js, setItem, console_error.
  fold (valueToStoreOf storedValue value).
  intros [[e He] | [Hnone | (store & text & e & Hstore & Hs & Hw)]].
  - rewrite He. eexists. reflexivity.
  - destruct (JSON_stringify (valueToStoreOf storedValue value)) as [text | e];
      [rewrite Hnone |]; eexists; reflexivity.
  - rewrite Hs, Hstore, Hw. eexists. reflexivity.
Qed.
End UseLocalStorageRoundTrip.

Lemma setValue_then_mount_witness :
  useLocalStorage_init JSON.value JSON.parse
    (mkWindow (Some (<["demo-preferences" :=
                        JSON_print (JSON.Object [("theme", JSON.Str "dark")])]> ∅)))
    "demo-preferences" (JSON.Object [("theme", JSON.Str "light")]) []
  = (Normal (JSON.Object [("theme", JSON.Str "dark")]), []).
Proof.
  destruct (setValue_then_mount JSON.value JSON.parse
              (fun v => Normal (JSON_print v)) (fun _ _ _ => None) eq_refl
              "demo-preferences" (JSON.Object [("theme", JSON.Str "light")]) ∅
              (NewValue _ (JSON.Object [("theme", JSON.Str "dark")]))
              (JSON_print (JSON.Object [("theme", JSON.Str "dark")]))
              (JSON.Object [("theme", JSON.Str "light")]) []
              eq_refl eq_refl eq_refl)
    as (window' & _ & Hstore & _ & Hread).
  destruct window' as [st]. cbn in Hstore. subst st. exact Hread.
Defined.

Lemma setValue_failed_write_witness :
  exists message,
    setValue JSON.value (fun v => Normal (JSON_print v)) (fun _ _ _ => None)
             "demo-name" (JSON.Str EmptyString) (mkWindow None)
             (NewValue _ (JSON.Str "Ann")) []
    = (Normal (JSON.Str "Ann", mkWindow None), [] ++ [message]).
Proof.
  apply (setValue_failed_write JSON.value (fun v => Normal (JSON_print v))
           (fun _ _ _ => None) "demo-name" (JSON.Str EmptyString) (mkWindow None)
           (NewValue _ (JSON.Str "Ann")) []).
  right. left. reflexivity.
Defined.

(** ** [useTimer] *)

Module CountdownFacts.
Import Countdown.
#[local] Open Scope Z_scope.

Lemma seconds_stopped (n : nat) (t : Z) :
  seconds n (mkState t false) = mkState t false.
Proof. induction n as [| n IH]; [reflexivity | exact IH]. Qed.

Lemma seconds_running (n : nat) (t : Z) :
  1 <= t ->
  seconds n (mkState t true)
  = if Z.of_nat n <? t then mkState (t - Z.of_nat n) true else mkState 0 false.
Proof.
  revert t. induction n as [| n IH]; intros t Ht.
  - cbn [seconds]. destruct (Z.ltb_spec (Z.of_nat 0) t); [| lia]. f_equal. lia.
  - cbn [seconds]. unfold second, armed, fired. cbn [isRunning timeLeft negb orb].
    destruct (Z.eqb_spec t 0); [lia |]. cbn [negb].
    destruct (Z.leb_spec t 1).
    + rewrite seconds_stopped. destruct (Z.ltb_spec (Z.of_nat (S n)) t); [lia |].
      reflexivity.
    + rewrite IH by lia.
      destruct (Z.ltb_spec (Z.of_nat n) (t - 1)),
               (Z.ltb_spec (Z.of_nat (S n)) t); try lia; [f_equal; lia | reflexivity].
Qed.

(** Started from a duration of at least one, the timer shows the duration
    less the seconds passed while that is positive, reaches zero at the
    duration and stops there: it never shows a negative time and never
    runs on. *)
Theorem countdown_reaches_zero (duration : Z) (n : nat) :
  1 <= duration -> duration <= 2 ^ 53 ->
  let s := seconds n (start (init duration)) in
  (Z.of_nat n < duration ->
   timeLeft s = duration - Z.of_nat n /\ isRunning s = true) /\
  (duration <= Z.of_nat n -> timeLeft s = 0 /\ isRunning s = false) /\
  0 <= timeLeft s <= duration.
Proof.
  intros Hd _. cbn zeta. unfold start, init. cbn [timeLeft].
  rewrite (seconds_running n duration Hd).
  destruct (Z.ltb_spec (Z.of_nat n) duration); cbn [timeLeft isRunning];
    repeat split; intros; lia.
Qed.

(** Pausing holds the time: while paused no second changes the state,
    and the timer resumes from the time it was paused at. *)
Theorem pause_holds_time (duration : Z) (n m : nat) :
  1 <= duration -> duration <= 2 ^ 53 -> Z.of_nat n < duration ->
  let paused := pause (seconds n (start (init duration))) in
  seconds m paused = paused /\
  start (seconds m paused) = seconds n (start (init duration)).
Proof.
  intros Hd _ Hn. cbn zeta. unfold start, init, pause. cbn [timeLeft].
  rewrite (seconds_running n duration Hd).
  destruct (Z.ltb_spec (Z.of_nat n) duration); [| lia]. cbn [timeLeft].
  rewrite seconds_stopped. split; reflexivity.
Qed.
End CountdownFacts.

Lemma countdown_reaches_zero_witness :
  Countdown.timeLeft
    (Countdown.seconds 30 (Countdown.start (Countdown.init 30))) = 0%Z /\
  Countdown.isRunning
    (Countdown.seconds 30 (Countdown.start (Countdown.init 30))) = false.
Proof.
  assert (H1 : (1 <= 30)%Z) by lia.
  assert (H2 : (30 <= 2 ^ 53)%Z) by lia.
  assert (H3 : (30 <= Z.of_nat 30)%Z) by lia.
  exact (proj1 (proj2 (CountdownFacts.countdown_reaches_zero 30 30 H1 H2)) H3).
Defined.

Lemma pause_holds_time_witness :
  Countdown.seconds 5
    (Countdown.pause (Countdown.seconds 10 (Countdown.start (Countdown.init 30))))
  = Countdown.pause (Countdown.seconds 10 (Countdown.start (Countdown.init 30))).
Proof.
  assert (H1 : (1 <= 30)%Z) by lia.
  assert (H2 : (30 <= 2 ^ 53)%Z) by lia.
  assert (H3 : (Z.of_nat 10 < 30)%Z) by lia.
  exact (proj1 (CountdownFacts.pause_holds_time 30 10 5 H1 H2 H3)).
Defined.

(** ** [UseCallbackDemo]: when its timer outlives it *)







(** ** [UseRefDemo]: release at unmount, and the auto-save *)

Lemma UseRefDemo_unmount_releases_witness :
  pending UseRefDemo
    (RefDemo.unmount
       (RefDemo.handleAll [RefDemo.ClickStart; RefDemo.ChangeAutoSave "draft"]
                          RefDemo.init freshBrowser).1
       (RefDemo.handleAll [RefDemo.ClickStart; RefDemo.ChangeAutoSave "draft"]
                          RefDemo.init freshBrowser).2) = ∅.
Proof.
  assert (Hpos : 1 <= nextTimer freshBrowser) by (cbn; lia).
  assert (Hlt : forall i, is_Some (timers freshBrowser !! i) -> i < nextTimer freshBrowser).
  { intros i [x Hx]. cbn in Hx. rewrite lookup_empty in Hx. discriminate. }
  assert (Hnone : pending UseRefDemo freshBrowser = ∅) by reflexivity.
  exact (UseRefDemo_unmount_releases
           [RefDemo.ClickStart; RefDemo.ChangeAutoSave "draft"]
           freshBrowser Hpos Hlt Hnone).
Defined.

Lemma autoSaveInv_handle (ev : RefDemo.Event) (s : RefDemo.State) (b : Browser) :
  refDemoInv s b -> autoSaveInv s b ->
  autoSaveInv (RefDemo.handle ev s b).1 (RefDemo.handle ev s b).2.
Proof.
  intros (Hpos & Hlt & Hheld & Hidle) Hauto. unfold autoSaveInv in *.
  destruct ev as [| | | value | j now]; cbn [RefDemo.handle].
  - unfold RefDemo.startTimer. destruct (RefDemo.isRunning s); cbn; [exact Hauto |].
    intros i k v Hi. apply lookup_insert_Some in Hi as [[_ [=]] | [_ Hi]].
    exact (Hauto i k v Hi).
  - unfold RefDemo.stopTimer.
    destruct (truthyId (RefDemo.timerRef s)); cbn; [| exact Hauto].
    intros i k v Hi. apply lookup_delete_Some in Hi as [_ Hi]. exact (Hauto i k v Hi).
  - unfold RefDemo.resetTimer, RefDemo.stopTimer.
    destruct (truthyId (RefDemo.timerRef s)); cbn; [| exact Hauto].
    intros i k v Hi. apply lookup_delete_Some in Hi as [_ Hi]. exact (Hauto i k v Hi).
  - unfold RefDemo.handleAutoSaveChange. cbn. intros i k v Hi.
    apply lookup_insert_Some in Hi as [[<- [= <- <-]] | [Hne Hi]];
      [repeat split |].
    exfalso. unfold clearIfSet in Hi.
    assert (Hread : timers b !! i = Some (k, AutoSaved v)).
    { destruct (truthyId (RefDemo.autoSaveTimeoutRef s)); cbn in Hi; [| exact Hi].
      apply lookup_delete_Some in Hi as [_ Hi]. exact Hi. }
    destruct (Hauto i k v Hread) as (_ & Href & _).
    assert (Htruthy : truthyId (RefDemo.autoSaveTimeoutRef s) = Some i).
    { destruct (Hheld i k (AutoSaved v) Hread eq_refl) as [Ht | Ha]; [| exact Ha].
      apply truthyId_Some in Ht as [_ Hge]. rewrite Href.
      apply truthyId_fresh. exact Hge. }
    rewrite Htruthy in Hi. cbn in Hi. rewrite lookup_delete_eq in Hi. discriminate.
  - unfold fire.
    assert (Hsame : forall cb,
               RefDemo.autoSaveTimeoutRef (RefDemo.run cb now s)
               = RefDemo.autoSaveTimeoutRef s /\
               RefDemo.autoSaveText (RefDemo.run cb now s) = RefDemo.autoSaveText s).
    { intros [[] | v]; split; reflexivity. }
    destruct (timers b !! j) as [[[|] cb] |] eqn:Hj; cbn; [| | exact Hauto];
      destruct (Hsame cb) as (Ha & Ht); intros i k v Hi; rewrite Ha, Ht.
    + exact (Hauto i k v Hi).
    + apply lookup_delete_Some in Hi as [_ Hi]. exact (Hauto i k v Hi).
Qed.

(** The auto-save is debounced: whatever is typed and whenever timers
    fire, the timer table never holds more than one auto-save timer; the
    one it holds is a timeout, the one [autoSaveTimeoutRef] refers to, and
    it saves the text typed last. *)
Theorem autoSave_debounced (evs : list RefDemo.Event) (b : Browser)
    (i j : nat) (k k' : TimerKind) (v v' : string) :
  1 <= nextTimer b ->
  (forall i, is_Some (timers b !! i) -> i < nextTimer b) ->
  pending UseRefDemo b = ∅ ->
  let s' := (RefDemo.handleAll evs RefDemo.init b).1 in
  let b' := (RefDemo.handleAll evs RefDemo.init b).2 in
  timers b' !! i = Some (k, AutoSaved v) ->
  timers b' !! j = Some (k', AutoSaved v') ->
  i = j /\ k = Timeout /\ v = RefDemo.autoSaveText s' /\
  RefDemo.autoSaveTimeoutRef s' = Some i.
Proof.
  intros Hpos Hlt Hnone. cbn zeta.
  assert (Hboth : forall evs s b0,
             refDemoInv s b0 -> autoSaveInv s b0 ->
             autoSaveInv (RefDemo.handleAll evs s b0).1 (RefDemo.handleAll evs s b0).2).
  { clear. induction evs as [| ev evs IH]; intros s b0 Hinv Hauto; [exact Hauto |].
    cbn [RefDemo.handleAll].
    pose proof (refDemoInv_handle ev s b0 Hinv) as Hinv'.
    pose proof (autoSaveInv_handle ev s b0 Hinv Hauto) as Hauto'.
    destruct (RefDemo.handle ev s b0) as [s1 b1]. apply IH; assumption. }
  assert (Hinit : autoSaveInv RefDemo.init b).
  { intros i0 k0 v0 Hi0. exfalso.
    assert (Hp : pending UseRefDemo b !! i0 = Some (k0, AutoSaved v0)).
    { apply map_lookup_filter_Some. split; [exact Hi0 | reflexivity]. }
    rewrite Hnone, lookup_empty in Hp. discriminate. }
  pose proof (Hboth evs RefDemo.init b (refDemoInv_init b Hpos Hlt Hnone) Hinit) as Hauto.
  intros Hi Hj. destruct (Hauto i k v Hi) as (Hk & Hri & Hv).
  destruct (Hauto j k' v' Hj) as (_ & Hrj & _).
  repeat split; congruence.
Qed.

Lemma autoSave_debounced_witness :
  timers (RefDemo.handleAll [RefDemo.ChangeAutoSave "d"; RefDemo.ChangeAutoSave "dr"]
                            RefDemo.init freshBrowser).2 !! 2
  = Some (Timeout, AutoSaved "dr") /\
  RefDemo.autoSaveTimeoutRef
    (RefDemo.handleAll [RefDemo.ChangeAutoSave "d"; RefDemo.ChangeAutoSave "dr"]
                       RefDemo.init freshBrowser).1 = Some 2.
Proof.
  assert (Hpos : 1 <= nextTimer freshBrowser) by (cbn; lia).
  assert (Hlt : forall i, is_Some (timers freshBrowser !! i) -> i < nextTimer freshBrowser).
  { intros i [x Hx]. cbn in Hx. rewrite lookup_empty in Hx. discriminate. }
  assert (Hnone : pending UseRefDemo freshBrowser = ∅) by reflexivity.
  split; [reflexivity |].
  exact (proj2 (proj2 (proj2
           (autoSave_debounced
              [RefDemo.ChangeAutoSave "d"; RefDemo.ChangeAutoSave "dr"]
              freshBrowser 2 2 Timeout Timeout "dr" "dr" Hpos Hlt Hnone
              eq_refl eq_refl)))).
Defined.

(** ** The menu button of the Shell *)

(** The menu button toggles the sidebar and nothing else: a click flips
    [sidebarOpen] and keeps [selectedHook], so the mounted panel stays,
    and a second click, on the tree rendered after the first, gives back
    the state.  A second click on the first tree would not: its handler
    sets the value computed at its own render again. *)
Theorem menu_button_toggles cn (st : NavigationState) :
  exists h h',
    menuButtonOf (App cn st) = Some h /\
    menuButtonOf (App cn (h st)) = Some h' /\
    h st = {| selectedHook := selectedHook st; sidebarOpen := negb (sidebarOpen st) |} /\
    h' (h st) = st /\
    h (h st) = h st /\
    mounted (App cn (h st)) = mounted (App cn st).
Proof.
  destruct st as [sel o]. do 2 eexists.
  split; [reflexivity |]. split; [reflexivity |].
  split; [reflexivity |]. split; [cbn; rewrite negb_involutive; reflexivity |].
  split; [reflexivity |]. rewrite !mounted_App. reflexivity.
Qed.

(** ** [UseRefDemo]: the previous count and the video player *)

Module RefDemoFacts.
#[local] Open Scope Z_scope.

Lemma run_ref (evs : list PreviousCount.Event) (s : PreviousCount.State) :
  PreviousCount.prevCountRef s = Some (PreviousCount.count s) ->
  PreviousCount.prevCountRef (PreviousCount.run evs s)
  = Some (PreviousCount.count (PreviousCount.run evs s)).
Proof.
  revert s. induction evs as [| ev evs IH]; intros s Hs; [exact Hs |].
  cbn [PreviousCount.run]. apply IH. reflexivity.
Qed.

(** The line "Previous" shows the count of the previous render, not the
    previous count.  Whatever happened since the panel was mounted: the
    render after a click on plus or minus shows the count before the
    click, and the render after any other change of the panel shows the
    current count as the previous one. *)
Theorem previous_is_last_render (evs : list PreviousCount.Event)
    (ev : PreviousCount.Event) :
  let s := PreviousCount.run evs PreviousCount.mounted in
  fst (PreviousCount.step ev s)
  = match ev with
    | PreviousCount.ClickMinus =>
        (PreviousCount.count s - 1, Some (PreviousCount.count s))
    | PreviousCount.ClickPlus =>
        (PreviousCount.count s + 1, Some (PreviousCount.count s))
    | PreviousCount.OtherState =>
        (PreviousCount.count s, Some (PreviousCount.count s))
    end.
Proof.
  cbn zeta.
  pose proof (run_ref evs PreviousCount.mounted eq_refl) as Href.
  generalize dependent (PreviousCount.run evs PreviousCount.mounted).
  intros s Href. destruct s as [c r]. cbn in Href. subst r.
  destruct ev; reflexivity.
Qed.

Lemma ticks_paused (n : nat) (t : Z) :
  VideoPlayer.ticks n (VideoPlayer.mkState false t) = VideoPlayer.mkState false t.
Proof. induction n as [| n IH]; [reflexivity | exact IH]. Qed.

(** The video player never runs past its duration: playing from a time
    within it, the time grows by one per tick up to the duration, and the
    tick after that stops the player at the duration. *)
Theorem video_stops_at_duration (t : Z) (n : nat) :
  0 <= t <= VideoPlayer.duration ->
  VideoPlayer.ticks n (VideoPlayer.play (VideoPlayer.mkState false t))
  = if t + Z.of_nat n <=? VideoPlayer.duration
    then VideoPlayer.mkState true (t + Z.of_nat n)
    else VideoPlayer.mkState false VideoPlayer.duration.
Proof.
  unfold VideoPlayer.play. cbn [VideoPlayer.currentTime]. revert t.
  induction n as [| n IH]; intros t Ht.
  - cbn [VideoPlayer.ticks]. destruct (Z.leb_spec (t + Z.of_nat 0) VideoPlayer.duration);
      [f_equal; lia | lia].
  - cbn [VideoPlayer.ticks]. unfold VideoPlayer.tick.
    cbn [VideoPlayer.isPlaying VideoPlayer.currentTime].
    destruct (Z.geb_spec t VideoPlayer.duration).
    + rewrite ticks_paused.
      destruct (Z.leb_spec (t + Z.of_nat (S n)) VideoPlayer.duration); [lia | reflexivity].
    + rewrite IH by lia.
      destruct (Z.leb_spec (t + 1 + Z.of_nat n) VideoPlayer.duration),
               (Z.leb_spec (t + Z.of_nat (S n)) VideoPlayer.duration);
        try lia; [f_equal; lia | reflexivity].
Qed.

(** A seek past the duration is not refused, but the next tick brings the
    time back to the duration and stops the player. *)
Theorem seek_past_duration (time : Z) (s : VideoPlayer.State) :
  VideoPlayer.duration <= time ->
  VideoPlayer.tick (VideoPlayer.seek time (VideoPlayer.play s))
  = VideoPlayer.mkState false VideoPlayer.duration.
Proof.
  intros Ht. unfold VideoPlayer.tick, VideoPlayer.seek, VideoPlayer.play.
  cbn [VideoPlayer.isPlaying VideoPlayer.currentTime].
  destruct (Z.geb_spec time VideoPlayer.duration); [reflexivity | lia].
Qed.
End RefDemoFacts.

Lemma video_stops_at_duration_witness :
  VideoPlayer.ticks 91
    (VideoPlayer.play (VideoPlayer.seek 10 VideoPlayer.init))
  = VideoPlayer.mkState false 100.
Proof.
  assert (Ht : (0 <= 10 <= VideoPlayer.duration)%Z) by (unfold VideoPlayer.duration; lia).
  exact (RefDemoFacts.video_stops_at_duration 10 91 Ht).
Defined.

Lemma seek_past_duration_witness :
  VideoPlayer.tick (VideoPlayer.seek 250 (VideoPlayer.play VideoPlayer.init))
  = VideoPlayer.mkState false 100.
Proof.
  assert (Ht : (VideoPlayer.duration <= 250)%Z) by (unfold VideoPlayer.duration; lia).
  exact (RefDemoFacts.seek_past_duration 250 VideoPlayer.init Ht).
Defined.
